(** * MnistSycl: the three-layer sigmoid network of [NeuralNetwork.h]

    A shallow embedding of [Query] and [Train]
    (src/MnistBenchmark/Include/NeuralNetwork.h) and the properties that the
    specification states about them.

    - [float] is IEEE 754 binary32 (24-bit significand, exponents up to 128),
      given by the Standard Library's executable [SpecFloat] operations with
      round-to-nearest-even: every [+], [-], [*], [/] of the source is one
      correctly rounded operation (no fused multiply-add, no extended
      intermediate precision).
    - [std::exp] belongs to the C++ runtime, not to the repository: the
      network is parameterised by an arbitrary function [exp].  [Libm.expf]
      is an executable reference implementation used to run the model on
      concrete data.
    - [std::array] and [gsl::span] values are lists.  Every element access
      is a lookup that fails ([None]) outside the list: the source has no
      defined behaviour there.  A span of static extent
      ([gsl::span<float, N>]) always has [N] elements: a statement that
      depends on it takes the length as a hypothesis.  The spans passed to [Query]
      and [Train] are taken to view storage that is disjoint from the
      network's.
    - The functions are written as statements over a memory [Mem] holding
      the network and the local arrays, executed in source order. *)

From Stdlib Require Import ZArith Lia SpecFloat.
From stdpp Require Import base tactics option list.

Set Default Proof Using "Type".

(** ** Single-precision arithmetic *)

Definition float : Type := spec_float.

Definition prec : Z := 24.
Definition emax : Z := 128.

Definition fadd : float -> float -> float := SFadd prec emax.
Definition fsub : float -> float -> float := SFsub prec emax.
Definition fmul : float -> float -> float := SFmul prec emax.
Definition fdiv : float -> float -> float := SFdiv prec emax.
Definition fneg : float -> float := SFopp.

(** [0.0f], [-0.0f] and [1.0f] (the [int] literal [1] of the source converts
    to it). *)
Definition f0 : float := S754_zero false.
Definition fm0 : float := S754_zero true.
Definition f1 : float := S754_finite false 8388608 (-23).

(** [FLT_MAX = (2^24 - 1) * 2^104]. *)
Definition FLT_MAX : float := S754_finite false 16777215 104.

Definition is_nan (x : float) : bool :=
  match x with S754_nan => true | _ => false end.

(** Finite values: zeros, subnormal and normal numbers. *)
Definition is_finite (x : float) : bool :=
  match x with S754_zero _ | S754_finite _ _ _ => true | _ => false end.

Definition is_zero (x : float) : bool :=
  match x with S754_zero _ => true | _ => false end.

(** The sign bit is clear (NaN has none). *)
Definition sign_clear (x : float) : bool :=
  match x with
  | S754_zero s | S754_infinity s | S754_finite s _ _ => negb s
  | S754_nan => false
  end.

(** The comparisons [==], [<], [<=] of the source language on [float]. *)
Definition feqb : float -> float -> bool := SFeqb.
Definition fltb : float -> float -> bool := SFltb.
Definition fleb : float -> float -> bool := SFleb.

(** [x] lies in the closed interval from 0 to 1. *)
Definition in_unit_interval (x : float) : bool := fleb f0 x && fleb x f1.

(** [x] lies strictly between 0 and 1. *)
Definition in_open_unit_interval (x : float) : bool := fltb f0 x && fltb x f1.

(** A number of the unit interval in canonical form: [+0], or a positive
    number with at most 24 significand bits that is below 1 or is [1.0f]. *)
Definition unit_float (y : float) : bool :=
  match y with
  | S754_zero false => true
  | S754_finite false m e =>
      (Zpos m <? 2 ^ 24)%Z &&
      ((e <=? -24)%Z || ((e =? -23)%Z && (Zpos m =? 2 ^ 23)%Z))
  | _ => false
  end.

(** A number that is at least 1 in canonical form: [+inf], or a normal
    positive number with exponent at least [-23]. *)
Definition ge_one_float (x : float) : bool :=
  match x with
  | S754_infinity false => true
  | S754_finite false m e =>
      (2 ^ 23 <=? Zpos m)%Z && (Zpos m <? 2 ^ 24)%Z && (-23 <=? e)%Z && (e <=? 104)%Z
  | _ => false
  end.

(** What the rounding functions of [SpecFloat] return for a rounded
    significand [m] at exponent [e]. *)
Definition result_of (sx : bool) (m e : Z) : float :=
  match m with
  | Z0 => S754_zero sx
  | Zpos p => if (e <=? emax - prec)%Z then S754_finite sx p e else S754_infinity sx
  | Zneg _ => S754_nan
  end.

(** The one property of [std::exp] that the range of [sigmoid] rests on: its
    result is never negative (it is NaN or has a clear sign bit). *)
Definition exp_sign_clear (f : float -> float) : Prop :=
  forall x, is_nan (f x) || sign_clear (f x) = true.

(** ** A reference [std::exp] for binary32

    The special values are those every IEC 60559 conforming library returns
    (exp(+-0) = 1, exp(-inf) = +0, exp(+inf) = +inf, exp(NaN) = NaN).  Other
    arguments are evaluated in 256-bit fixed point (argument divided by 2^8,
    Taylor series, eight squarings) and rounded to the nearest [float]. *)
Module Libm.

Definition frac_bits : Z := 256.

Fixpoint exp_series (fuel : nat) (k r term acc : Z) : Z :=
  match fuel with
  | O => acc
  | S fuel' =>
      let term' := Z.quot (Z.quot (term * r) (2 ^ frac_bits)) k in
      exp_series fuel' (k + 1)%Z r term' (acc + term')%Z
  end.

Fixpoint square_n (n : nat) (t : Z) : Z :=
  match n with
  | O => t
  | S n' => square_n n' (Z.quot (t * t) (2 ^ frac_bits))
  end.

Definition expf (x : float) : float :=
  match x with
  | S754_nan => S754_nan
  | S754_zero _ => f1
  | S754_infinity false => S754_infinity false
  | S754_infinity true => S754_zero false
  | S754_finite s m e =>
      let saturated := if s then S754_zero false else S754_infinity false in
      if (8 <=? e)%Z then saturated
      else
        let r := Z.shiftl (Zpos m) (e + frac_bits - 8) in
        if (2 ^ (frac_bits - 1) <=? r)%Z then saturated
        else
          let r := if s then (- r)%Z else r in
          let t := exp_series 48 1 r (2 ^ frac_bits) (2 ^ frac_bits) in
          binary_normalize prec emax (square_n 8 t) (- frac_bits) false
  end.

End Libm.

(** ** The network state *)

(** [struct NeuralNetwork]: [inputWeights[h][i]] has [NumHiddenNodes] rows of
    [NumInputNodes] entries, [outputWeights[o][h]] has [NumOutputNodes] rows
    of [NumHiddenNodes] entries. *)
Record NeuralNetwork : Type := mkNeuralNetwork {
  learningRate : float;
  inputWeights : list (list float);
  outputWeights : list (list float)
}.

(** The memory of one call: the network (passed by reference) and the local
    arrays of [Query] and [Train]. *)
Record Mem : Type := mkMem {
  net : NeuralNetwork;
  hiddenValues : list float;
  outputValues : list float;
  outputErrorValues : list float;
  hiddenErrorValues : list float
}.

Inductive local : Type :=
  | HiddenValues | OutputValues | OutputErrorValues | HiddenErrorValues.

Definition get (a : local) (m : Mem) : list float :=
  match a with
  | HiddenValues => hiddenValues m
  | OutputValues => outputValues m
  | OutputErrorValues => outputErrorValues m
  | HiddenErrorValues => hiddenErrorValues m
  end.

Definition set (a : local) (v : list float) (m : Mem) : Mem :=
  match a with
  | HiddenValues =>
      mkMem (net m) v (outputValues m) (outputErrorValues m) (hiddenErrorValues m)
  | OutputValues =>
      mkMem (net m) (hiddenValues m) v (outputErrorValues m) (hiddenErrorValues m)
  | OutputErrorValues =>
      mkMem (net m) (hiddenValues m) (outputValues m) v (hiddenErrorValues m)
  | HiddenErrorValues =>
      mkMem (net m) (hiddenValues m) (outputValues m) (outputErrorValues m) v
  end.

Definition set_net (n : NeuralNetwork) (m : Mem) : Mem :=
  mkMem n (hiddenValues m) (outputValues m) (outputErrorValues m) (hiddenErrorValues m).

(** The two weight matrices of the network in memory. *)
Inductive weights : Type := InputWeights | OutputWeights.

Definition get_weights (k : weights) (m : Mem) : list (list float) :=
  match k with
  | InputWeights => inputWeights (net m)
  | OutputWeights => outputWeights (net m)
  end.

Definition set_weights (k : weights) (w : list (list float)) (m : Mem) : Mem :=
  match k with
  | InputWeights =>
      set_net (mkNeuralNetwork (learningRate (net m)) w (outputWeights (net m))) m
  | OutputWeights =>
      set_net (mkNeuralNetwork (learningRate (net m)) (inputWeights (net m)) w) m
  end.

(** A statement runs on a memory and fails on an out-of-range access. *)
Definition cmd : Type := Mem -> option Mem.

(** [v[i]] and [v[i] = x] on an array. *)
Definition read (v : list float) (i : nat) : option float := v !! i.

Definition write (v : list float) (i : nat) (x : float) : option (list float) :=
  if decide (i < length v) then Some (<[i:=x]> v) else None.

(** [w[r][c]] and [w[r][c] = x] on an array of rows. *)
Definition read2 (w : list (list float)) (r c : nat) : option float :=
  row ← w !! r; read row c.

Definition write2 (w : list (list float)) (r c : nat) (x : float)
  : option (list (list float)) :=
  row ← w !! r; row' ← write row c x; Some (<[r:=row']> w).

(** Accesses to a local array in memory. *)
Definition load (a : local) (i : nat) (m : Mem) : option float :=
  read (get a m) i.

Definition store (a : local) (i : nat) (x : float) : cmd :=
  fun m => v ← write (get a m) i x; Some (set a v m).

(** Accesses to a weight matrix of the network in memory. *)
Definition load2 (k : weights) (r c : nat) (m : Mem) : option float :=
  read2 (get_weights k m) r c.

Definition store2 (k : weights) (r c : nat) (x : float) : cmd :=
  fun m => w ← write2 (get_weights k m) r c x; Some (set_weights k w m).

(** [std::array<float, n> a{};] : [n] elements, each [0.0f]. *)
Definition declare (a : local) (n : nat) : cmd :=
  fun m => Some (set a (replicate n f0) m).

(** Statements in sequence. *)
Fixpoint block (cs : list cmd) : cmd :=
  match cs with
  | [] => Some
  | c :: cs' => fun m => c m ≫= block cs'
  end.

(** [for (size_t i{}; i < n; ++i) body(i)]. *)
Definition for_range (n : nat) (body : nat -> cmd) : cmd :=
  fun m => fold_left (fun acc i => acc ≫= body i) (seq 0 n) (Some m).

(** [for (auto& x : a) x = f(x);] and the in-place unary
    [std::transform(begin(a), end(a), begin(a), f)]: the elements of [a] in
    order. *)
Definition transform_in_place (a : local) (f : float -> float) : cmd :=
  fun m =>
    for_range (length (get a m))
      (fun i m => x ← load a i m; store a i (f x) m) m.

(** [std::transform_reduce(seq, first1, last1, first2, init, std::plus<>(),
    std::multiplies<>())]: the first range is walked to its end, the second
    in step with it; the sequential policy accumulates from the left,
    [init + x0*y0 + x1*y1 + ...]. *)
Fixpoint transform_reduce (xs ys : list float) (init : float) : option float :=
  match xs with
  | [] => Some init
  | x :: xs' =>
      match ys with
      | [] => None
      | y :: ys' => transform_reduce xs' ys' (fadd init (fmul x y))
      end
  end.

(** [std::generate(seq, begin(a), end(a), g)] for a generator [g] that owns a
    counter ([i = 0] in the lambda's capture list, [++i] in its body):
    [g i m] is the value returned when the counter is [i].  [pos] runs over
    the positions of [a] that remain to be assigned. *)
Fixpoint generate_from (a : local) (g : nat -> Mem -> option float)
    (remaining pos i : nat) : cmd :=
  match remaining with
  | O => Some
  | S remaining' =>
      fun m =>
        x ← g i m;
        m' ← store a pos x m;
        generate_from a g remaining' (S pos) (S i) m'
  end.

Definition generate (a : local) (g : nat -> Mem -> option float) : cmd :=
  fun m => generate_from a g (length (get a m)) 0 0 m.

(** The binary [std::transform(first1, last1, first2, out, std::minus<>())]
    of [Train]: [out[k] = xs[k] - second[k]] for every position of [xs]. *)
Definition transform_minus (xs : list float) (second out : local) : cmd :=
  for_range (length xs)
    (fun k m =>
       x ← read xs k;
       y ← load second k m;
       store out k (fsub x y) m).

(** A statement keeps a property [J] of the network: if it runs to the end
    on a memory whose network satisfies [J], so does the network it leaves. *)
Definition preserves (J : NeuralNetwork -> Prop) (c : cmd) : Prop :=
  forall m m', c m = Some m' -> J (net m) -> J (net m').

(** The number of entries of every row of a weight matrix. *)
Definition row_lengths (w : list (list float)) : list nat := map length w.

(** [nn'] has the learning rate of [nn] and weight matrices with the same
    number of rows and the same row lengths. *)
Definition same_frame (nn nn' : NeuralNetwork) : Prop :=
  learningRate nn' = learningRate nn /\
  row_lengths (inputWeights nn') = row_lengths (inputWeights nn) /\
  row_lengths (outputWeights nn') = row_lengths (outputWeights nn).

(** A zero, or a finite number of either sign with at most 24 significand
    bits and exponent at most [-23]: its magnitude is below 2. *)
Definition small_float (x : float) : bool :=
  match x with
  | S754_zero _ => true
  | S754_finite _ m e => (Zpos m <? 2 ^ 24)%Z && (e <=? -23)%Z
  | _ => false
  end.

(** [std::exp] returns NaN for NaN, as IEC 60559 requires. *)
Definition exp_of_nan (f : float -> float) : Prop := f S754_nan = S754_nan.

(** ** Concrete networks *)

(** 0.5, 0.25, 0.75, 0.125, 0.375 and 17. *)
Definition half : float := S754_finite false 8388608 (-24).
Definition quarter : float := S754_finite false 8388608 (-25).
Definition three_quarters : float := S754_finite false 12582912 (-24).
Definition eighth : float := S754_finite false 8388608 (-26).
Definition three_eighths : float := S754_finite false 12582912 (-25).
Definition seventeen : float := S754_finite false 8912896 (-19).

(** A network with two input, two hidden and two output nodes. *)
Definition demo_net : NeuralNetwork :=
  mkNeuralNetwork half
    [[half; quarter]; [fneg quarter; three_quarters]]
    [[eighth; fneg three_eighths]; [quarter; f1]].

Definition demo_input : list float := [f1; half].
Definition demo_target : list float := [f0; f1].

(** The memory that [Query] leaves for [demo_net] and [demo_input] with
    [Libm.expf]. *)
Definition demo_query_mem : Mem :=
  mkMem demo_net
    [S754_finite false 10927922 (-24); S754_finite false 8912215 (-24)]
    [S754_finite false 15790310 (-25); S754_finite false 11188169 (-24)]
    [] [].

(** Finite weights and a finite input whose products overflow. *)
Definition sat_net : NeuralNetwork :=
  mkNeuralNetwork half [[FLT_MAX]; [FLT_MAX]] [[FLT_MAX; FLT_MAX]].

Definition sat_input : list float := [FLT_MAX].

(** Finite weights and a finite input whose hidden sum is inf - inf. *)
Definition overflow_net : NeuralNetwork :=
  mkNeuralNetwork half [[FLT_MAX; fneg FLT_MAX]] [[f1]].

Definition overflow_input : list float := [FLT_MAX; FLT_MAX].

(** One node per layer; in [zero_net] the output weight is [-0.0f]. *)
Definition unit_net : NeuralNetwork := mkNeuralNetwork half [[half]] [[half]].
Definition zero_net : NeuralNetwork := mkNeuralNetwork half [[half]] [[fm0]].

(** A network whose only output is exactly [1.0f] for [saturated_input]. *)
Definition saturated_net : NeuralNetwork :=
  mkNeuralNetwork half [[f1]] [[seventeen]].

Definition saturated_input : list float := [seventeen].

(** An input of zeros, an input with a NaN, and a memory of [Train] with
    arbitrary local arrays of the declared lengths. *)
Definition zero_input : list float := [f0; fm0].
Definition nan_input : list float := [f1; S754_nan].

Definition demo_mem : Mem :=
  mkMem demo_net [half; quarter] [half; f1] [quarter; fneg half] [eighth; half].

Section Network.

(** The template parameters and the runtime's [std::exp]. *)
Variables NumInputNodes NumHiddenNodes NumOutputNodes : nat.
Variable exp : float -> float.

(** [1 / (1 + std::exp(-value))]. *)
Definition sigmoid (value : float) : float :=
  fdiv f1 (fadd f1 (exp (fneg value))).

(** *** [Query] (lines 49-84) *)

(** [hiddenValues[i] += input[j] * neuralNetwork.inputWeights[i][j];] *)
Definition Query_hidden_step (input : list float) (i j : nat) : cmd :=
  fun m =>
    x ← read input j;
    w ← load2 InputWeights i j m;
    h ← load HiddenValues i m;
    store HiddenValues i (fadd h (fmul x w)) m.

(** [outputValues[i] += hiddenValues[j] * neuralNetwork.outputWeights[i][j];] *)
Definition Query_output_step (i j : nat) : cmd :=
  fun m =>
    x ← load HiddenValues j m;
    w ← load2 OutputWeights i j m;
    o ← load OutputValues i m;
    store OutputValues i (fadd o (fmul x w)) m.

Definition Query_body (input : list float) : cmd :=
  block
    [ declare HiddenValues NumHiddenNodes;
      for_range NumHiddenNodes (fun i =>
        for_range NumInputNodes (fun j => Query_hidden_step input i j));
      transform_in_place HiddenValues sigmoid;
      declare OutputValues NumOutputNodes;
      for_range NumOutputNodes (fun i =>
        for_range NumHiddenNodes (fun j => Query_output_step i j));
      transform_in_place OutputValues sigmoid ].

(** The memory on entry to a call: the network, no local declared yet. *)
Definition enter (nn : NeuralNetwork) : Mem := mkMem nn [] [] [] [].

(** The memory when [Query] returns, and the array it returns. *)
Definition Query_run (nn : NeuralNetwork) (input : list float) : option Mem :=
  Query_body input (enter nn).

Definition Query (nn : NeuralNetwork) (input : list float) : option (list float) :=
  outputValues <$> Query_run nn input.

(** *** [Train] (lines 86-162) *)

(** The first generator: [transform_reduce] of [input] with
    [neuralNetwork.inputWeights[i]]. *)
Definition Train_hidden_gen (input : list float) (i : nat) (m : Mem) : option float :=
  row ← inputWeights (net m) !! i;
  transform_reduce input row f0.

(** The second generator: [transform_reduce] of [hiddenValues] with
    [neuralNetwork.outputWeights[i]]. *)
Definition Train_output_gen (i : nat) (m : Mem) : option float :=
  row ← outputWeights (net m) !! i;
  transform_reduce (hiddenValues m) row f0.

(** [hiddenErrorValues[i] += neuralNetwork.outputWeights[j][i] * outputErrorValues[j];] *)
Definition Train_hidden_error_step (i j : nat) : cmd :=
  fun m =>
    w ← load2 OutputWeights j i m;
    e ← load OutputErrorValues j m;
    h ← load HiddenErrorValues i m;
    store HiddenErrorValues i (fadd h (fmul w e)) m.

(** [learningRate * (error * value * (1 - value) * source)], as the source
    parenthesises it. *)
Definition delta (lr error value source : float) : float :=
  fmul lr (fmul (fmul (fmul error value) (fsub f1 value)) source).

(** [neuralNetwork.outputWeights[i][j] += neuralNetwork.learningRate *
    (outputErrorValues[i] * outputValues[i] * (1 - outputValues[i]) * hiddenValues[j]);] *)
Definition Train_output_update_step (i j : nat) : cmd :=
  fun m =>
    w ← load2 OutputWeights i j m;
    e ← load OutputErrorValues i m;
    o ← load OutputValues i m;
    h ← load HiddenValues j m;
    store2 OutputWeights i j (fadd w (delta (learningRate (net m)) e o h)) m.

(** [neuralNetwork.inputWeights[i][j] += neuralNetwork.learningRate *
    (hiddenErrorValues[i] * hiddenValues[i] * (1 - hiddenValues[i]) * input[j]);] *)
Definition Train_input_update_step (input : list float) (i j : nat) : cmd :=
  fun m =>
    w ← load2 InputWeights i j m;
    e ← load HiddenErrorValues i m;
    h ← load HiddenValues i m;
    x ← read input j;
    store2 InputWeights i j (fadd w (delta (learningRate (net m)) e h x)) m.

(** Lines 91-133: the forward pass of [Train]. *)
Definition Train_forward (input : list float) : cmd :=
  block
    [ declare HiddenValues NumHiddenNodes;
      generate HiddenValues (Train_hidden_gen input);
      transform_in_place HiddenValues sigmoid;
      declare OutputValues NumOutputNodes;
      generate OutputValues Train_output_gen;
      transform_in_place OutputValues sigmoid ].

(** Lines 135-145: the output error and the hidden error. *)
Definition Train_errors (target : list float) : cmd :=
  block
    [ declare OutputErrorValues NumOutputNodes;
      transform_minus target OutputValues OutputErrorValues;
      declare HiddenErrorValues NumHiddenNodes;
      for_range NumHiddenNodes (fun i =>
        for_range NumOutputNodes (fun j => Train_hidden_error_step i j)) ].

(** Lines 147-161: the two weight updates. *)
Definition Train_update_output : cmd :=
  for_range NumOutputNodes (fun i =>
    for_range NumHiddenNodes (fun j => Train_output_update_step i j)).

Definition Train_update_input (input : list float) : cmd :=
  for_range NumHiddenNodes (fun i =>
    for_range NumInputNodes (fun j => Train_input_update_step input i j)).

Definition Train_body (input target : list float) : cmd :=
  block
    [ Train_forward input;
      Train_errors target;
      Train_update_output;
      Train_update_input input ].

(** The memory when [Train] returns, and the network it leaves behind. *)
Definition Train_run (nn : NeuralNetwork) (input target : list float) : option Mem :=
  Train_body input target (enter nn).

Definition Train (nn : NeuralNetwork) (input target : list float)
  : option NeuralNetwork :=
  net <$> Train_run nn input target.

(** *** The closed forms of the specification (sections 4.2 and 4.3) *)

(** [v[i]] and [w[r][c]] as values ([0.0f] outside the array, which no
    formula below reaches on well-shaped data). *)
Definition at1 (v : list float) (i : nat) : float := default f0 (read v i).

Definition at2 (w : list (list float)) (r c : nat) : float :=
  default f0 (read2 w r c).

(** The sum of [term 0], ..., [term (n-1)], accumulated in increasing index
    order from [0.0f]. *)
Definition fsum (n : nat) (term : nat -> float) : float :=
  fold_left (fun acc k => fadd acc (term k)) (seq 0 n) f0.

(** The array [f 0, ..., f (n-1)]. *)
Definition tabulate {A : Type} (n : nat) (f : nat -> A) : list A :=
  map f (seq 0 n).

(** [hidden[h] = sigmoid (sum_i input[i] * inputWeights[h][i])]. *)
Definition spec_hidden (nn : NeuralNetwork) (input : list float) (h : nat) : float :=
  sigmoid (fsum NumInputNodes (fun i =>
    fmul (at1 input i) (at2 (inputWeights nn) h i))).

(** [output[o] = sigmoid (sum_h hidden[h] * outputWeights[o][h])]. *)
Definition spec_output (nn : NeuralNetwork) (input : list float) (o : nat) : float :=
  sigmoid (fsum NumHiddenNodes (fun h =>
    fmul (spec_hidden nn input h) (at2 (outputWeights nn) o h))).

(** [outputError[o] = target[o] - output[o]]. *)
Definition spec_outputError (nn : NeuralNetwork) (input target : list float)
    (o : nat) : float :=
  fsub (at1 target o) (spec_output nn input o).

(** [hiddenError[h] = sum_o outputWeights[o][h] * outputError[o]]. *)
Definition spec_hiddenError (nn : NeuralNetwork) (input target : list float)
    (h : nat) : float :=
  fsum NumOutputNodes (fun o =>
    fmul (at2 (outputWeights nn) o h) (spec_outputError nn input target o)).

(** The network after one training step, by the update formulas of
    section 4.3 (each product parenthesised as [delta] does). *)
Definition spec_Train (nn : NeuralNetwork) (input target : list float)
  : NeuralNetwork :=
  mkNeuralNetwork (learningRate nn)
    (tabulate NumHiddenNodes (fun h => tabulate NumInputNodes (fun i =>
       fadd (at2 (inputWeights nn) h i)
         (delta (learningRate nn) (spec_hiddenError nn input target h)
            (spec_hidden nn input h) (at1 input i)))))
    (tabulate NumOutputNodes (fun o => tabulate NumHiddenNodes (fun h =>
       fadd (at2 (outputWeights nn) o h)
         (delta (learningRate nn) (spec_outputError nn input target o)
            (spec_output nn input o) (spec_hidden nn input h))))).

(** [w] has [rows] rows of [cols] entries. *)
Definition has_shape (rows cols : nat) (w : list (list float)) : bool :=
  (length w =? rows) && forallb (fun row => length row =? cols) w.

(** The learning rate and every weight are finite numbers. *)
Definition finite_network (nn : NeuralNetwork) : bool :=
  is_finite (learningRate nn) &&
  forallb (forallb is_finite) (inputWeights nn) &&
  forallb (forallb is_finite) (outputWeights nn).

(** The shape that the type of [NeuralNetwork] fixes. *)
Definition well_formed (nn : NeuralNetwork) : Prop :=
  has_shape NumHiddenNodes NumInputNodes (inputWeights nn) = true /\
  has_shape NumOutputNodes NumHiddenNodes (outputWeights nn) = true.

(** ** Arrays and loops *)

(** One step of the option monad: [Some x ≫= k] becomes [k x]. *)
Ltac bind_step := cbn [mbind option_bind].

Lemma read_at1 (v : list float) (i : nat) :
  i < length v -> read v i = Some (at1 v i).
Proof.
  intros Hi. unfold at1, read.
  destruct (lookup_lt_is_Some_2 v i Hi) as [x ->]. reflexivity.
Qed.

Lemma has_shape_spec (rows cols : nat) (w : list (list float)) :
  has_shape rows cols w = true <->
  length w = rows /\ Forall (fun row => length row = cols) w.
Proof.
  unfold has_shape. rewrite andb_true_iff, Nat.eqb_eq, forallb_forall, Forall_forall.
  split; intros [Hl Hr]; split; try assumption; intros row Hin.
  - apply Nat.eqb_eq, Hr, list_elem_of_In, Hin.
  - apply Nat.eqb_eq, Hr, list_elem_of_In, Hin.
Qed.

Lemma has_shape_row (rows cols : nat) (w : list (list float)) (r : nat) :
  has_shape rows cols w = true -> r < rows ->
  exists row, w !! r = Some row /\ length row = cols.
Proof.
  intros [Hl Hr]%has_shape_spec Hlt.
  destruct (lookup_lt_is_Some_2 w r) as [row Hrow]; [lia|].
  exists row. split; [assumption|].
  exact (proj1 (Forall_lookup _ w) Hr r row Hrow).
Qed.

Lemma read2_at2 (rows cols : nat) (w : list (list float)) (r c : nat) :
  has_shape rows cols w = true -> r < rows -> c < cols ->
  read2 w r c = Some (at2 w r c).
Proof.
  intros Hw Hr Hc. destruct (has_shape_row _ _ _ _ Hw Hr) as (row & Hrow & Hlen).
  unfold at2, read2. rewrite Hrow. simpl.
  rewrite read_at1 by lia. reflexivity.
Qed.

Lemma length_tabulate {A : Type} (n : nat) (f : nat -> A) :
  length (tabulate n f) = n.
Proof. unfold tabulate. rewrite length_map, length_seq. reflexivity. Qed.

Lemma tabulate_S {A : Type} (n : nat) (f : nat -> A) :
  tabulate (S n) f = tabulate n f ++ [f n].
Proof. unfold tabulate. rewrite seq_S, map_app. reflexivity. Qed.

Lemma lookup_tabulate {A : Type} (n : nat) (f : nat -> A) (i : nat) :
  i < n -> tabulate n f !! i = Some (f i).
Proof.
  intros Hi. unfold tabulate. rewrite list_lookup_fmap, lookup_seq_lt by lia.
  reflexivity.
Qed.

Lemma tabulate_ext {A : Type} (n : nat) (f g : nat -> A) :
  (forall i, i < n -> f i = g i) -> tabulate n f = tabulate n g.
Proof.
  intros Hfg. unfold tabulate. apply map_ext_in.
  intros i Hi%in_seq. apply Hfg. lia.
Qed.

Lemma at1_tabulate (n : nat) (f : nat -> float) (i : nat) :
  i < n -> at1 (tabulate n f) i = f i.
Proof. intros Hi. unfold at1, read. rewrite lookup_tabulate by lia. reflexivity. Qed.

Lemma fsum_ext (n : nat) (s t : nat -> float) :
  (forall k, k < n -> s k = t k) -> fsum n s = fsum n t.
Proof.
  intros Hst. unfold fsum. generalize f0.
  induction n as [|n IH]; intros acc; [reflexivity|].
  rewrite seq_S, !fold_left_app. simpl.
  rewrite IH by (intros; apply Hst; lia). rewrite Hst by lia. reflexivity.
Qed.

Lemma for_range_S (n : nat) (body : nat -> cmd) (m : Mem) :
  for_range (S n) body m = for_range n body m ≫= body n.
Proof. unfold for_range. rewrite seq_S, fold_left_app. reflexivity. Qed.

(** A loop that walks through the memories [M 0], [M 1], ... ends in [M n]. *)
Lemma for_range_steps (M : nat -> Mem) (n : nat) (body : nat -> cmd) :
  (forall k, k < n -> body k (M k) = Some (M (S k))) ->
  for_range n body (M 0) = Some (M n).
Proof.
  induction n as [|n IH]; intros Hstep; [reflexivity|].
  rewrite for_range_S, IH by (intros; apply Hstep; lia).
  simpl. apply Hstep. lia.
Qed.

(** A loop whose [k]-th iteration overwrites element [k] of an array (of
    floats or of rows) that [put] places in memory. *)
Lemma overwrite_loop {T : Type} (put : list T -> Mem -> Mem) (n : nat)
    (G : nat -> T) (body : nat -> cmd) (m0 : Mem) (v : list T) :
  length v = n ->
  (forall k v', k < n -> length v' = n ->
     (forall i, k <= i -> v' !! i = v !! i) ->
     body k (put v' m0) = Some (put (<[k:=G k]> v') m0)) ->
  for_range n body (put v m0) = Some (put (tabulate n G) m0).
Proof.
  intros Hlen Hbody.
  pose (M := fun k => put (tabulate k G ++ drop k v) m0).
  change (put v m0) with (M 0).
  replace (put (tabulate n G) m0) with (M n).
  2:{ unfold M. rewrite drop_ge, app_nil_r by lia. reflexivity. }
  apply for_range_steps. intros k Hk. unfold M.
  rewrite Hbody; [|assumption|..].
  - destruct (lookup_lt_is_Some_2 v k) as [x Hx]; [lia|].
    rewrite insert_app_r_alt by (rewrite length_tabulate; lia).
    rewrite length_tabulate, Nat.sub_diag, (drop_S _ _ _ Hx).
    rewrite tabulate_S, <- app_assoc. reflexivity.
  - rewrite length_app, length_tabulate, length_drop. lia.
  - intros i Hi. rewrite lookup_app_r by (rewrite length_tabulate; lia).
    rewrite length_tabulate, lookup_drop. f_equal. lia.
Qed.

(** A loop whose every iteration adds a term to element [i] of an array. *)
Lemma accumulate_loop (put : list float -> Mem -> Mem) (n i : nat)
    (t : nat -> float) (body : nat -> cmd) (m0 : Mem) (v : list float) (x0 : float) :
  v !! i = Some x0 ->
  (forall j v', j < n -> length v' = length v ->
     body j (put v' m0) = x ← v' !! i; Some (put (<[i:=fadd x (t j)]> v') m0)) ->
  for_range n body (put v m0) =
  Some (put (<[i:=fold_left (fun acc j => fadd acc (t j)) (seq 0 n) x0]> v) m0).
Proof.
  intros Hx Hbody.
  pose (M := fun j =>
    put (<[i:=fold_left (fun acc j => fadd acc (t j)) (seq 0 j) x0]> v) m0).
  replace (put v m0) with (M 0).
  2:{ unfold M. simpl. rewrite list_insert_id by assumption. reflexivity. }
  apply for_range_steps. intros j Hj. unfold M.
  rewrite Hbody by (rewrite ?length_insert; lia).
  rewrite list_lookup_insert_eq by (apply lookup_lt_Some in Hx; lia).
  rewrite seq_S, fold_left_app. simpl. rewrite list_insert_insert_eq. reflexivity.
Qed.

(** *** Memory accesses *)

Lemma get_set (a : local) (v : list float) (m : Mem) : get a (set a v m) = v.
Proof. destruct a; reflexivity. Qed.

Lemma set_set (a : local) (v v' : list float) (m : Mem) :
  set a v' (set a v m) = set a v' m.
Proof. destruct a; reflexivity. Qed.

Lemma net_set (a : local) (v : list float) (m : Mem) : net (set a v m) = net m.
Proof. destruct a; reflexivity. Qed.

Lemma load_set (a : local) (v : list float) (m : Mem) (i : nat) :
  load a i (set a v m) = v !! i.
Proof. unfold load, read. rewrite get_set. reflexivity. Qed.

Lemma load_set_other (a b : local) (v : list float) (m : Mem) (i : nat) :
  a <> b -> load a i (set b v m) = read (get a m) i.
Proof. intros Hab. destruct a, b; try congruence; reflexivity. Qed.

Lemma store_set (a : local) (v : list float) (m : Mem) (i : nat) (x : float) :
  i < length v -> store a i x (set a v m) = Some (set a (<[i:=x]> v) m).
Proof.
  intros Hi. unfold store, write. rewrite get_set.
  rewrite decide_True by assumption. simpl. rewrite set_set. reflexivity.
Qed.

Lemma get_set_weights (k : weights) (w : list (list float)) (m : Mem) :
  get_weights k (set_weights k w m) = w.
Proof. destruct k; reflexivity. Qed.

Lemma set_set_weights (k : weights) (w w' : list (list float)) (m : Mem) :
  set_weights k w' (set_weights k w m) = set_weights k w' m.
Proof. destruct k; reflexivity. Qed.

Lemma set_get_weights (k : weights) (m : Mem) :
  set_weights k (get_weights k m) m = m.
Proof. destruct k, m as [[] ? ? ? ?]; reflexivity. Qed.

Lemma get_local_set_weights (a : local) (k : weights) (w : list (list float)) (m : Mem) :
  get a (set_weights k w m) = get a m.
Proof. destruct a, k; reflexivity. Qed.

Lemma learningRate_set_weights (k : weights) (w : list (list float)) (m : Mem) :
  learningRate (net (set_weights k w m)) = learningRate (net m).
Proof. destruct k; reflexivity. Qed.

Lemma load2_set (k : weights) (w : list (list float)) (m : Mem) (r c : nat) :
  load2 k r c (set_weights k w m) = read2 w r c.
Proof. unfold load2. rewrite get_set_weights. reflexivity. Qed.

Lemma store2_set (k : weights) (w : list (list float)) (m : Mem) (r c : nat)
    (x : float) (row : list float) :
  w !! r = Some row -> c < length row ->
  store2 k r c x (set_weights k w m) =
  Some (set_weights k (<[r:=<[c:=x]> row]> w) m).
Proof.
  intros Hrow Hc. unfold store2, write2, write. rewrite get_set_weights, Hrow.
  simpl. rewrite decide_True by assumption. simpl.
  rewrite set_set_weights. reflexivity.
Qed.

(** *** The loops of [Query] and [Train] *)

Lemma insert_tabulate_drop {T : Type} (k : nat) (G : nat -> T) (v : list T) :
  k < length v ->
  <[k:=G k]> (tabulate k G ++ drop k v) = tabulate (S k) G ++ drop (S k) v.
Proof.
  intros Hk. destruct (lookup_lt_is_Some_2 v k Hk) as [x Hx].
  rewrite insert_app_r_alt by (rewrite length_tabulate; lia).
  rewrite length_tabulate, Nat.sub_diag, (drop_S _ _ _ Hx).
  rewrite tabulate_S, <- app_assoc. reflexivity.
Qed.

Lemma tabulate_at1 (g : float -> float) (v : list float) :
  tabulate (length v) (fun k => g (at1 v k)) = map g v.
Proof.
  apply list_eq. intros i. destruct (decide (i < length v)) as [Hi|Hi].
  - rewrite lookup_tabulate by assumption. rewrite list_lookup_fmap.
    unfold at1, read. destruct (lookup_lt_is_Some_2 v i Hi) as [x ->]. reflexivity.
  - rewrite !lookup_ge_None_2; [reflexivity| |].
    + rewrite length_map. lia.
    + rewrite length_tabulate. lia.
Qed.

(** The nest [for i < N: for j < n: a[i] += t i j] on a freshly declared
    array [a]. *)
Lemma accumulate_nest (a : local) (N n : nat) (step : nat -> nat -> cmd)
    (t : nat -> nat -> float) (m0 : Mem) :
  (forall i j v, i < N -> j < n -> length v = N ->
     step i j (set a v m0) =
     x ← v !! i; Some (set a (<[i:=fadd x (t i j)]> v) m0)) ->
  for_range N (fun i => for_range n (step i)) (set a (replicate N f0) m0) =
  Some (set a (tabulate N (fun i => fsum n (t i))) m0).
Proof.
  intros Hstep. apply overwrite_loop; [apply length_replicate|].
  intros k v' Hk Hlen Hsame. unfold fsum.
  apply accumulate_loop.
  - rewrite Hsame by lia. apply lookup_replicate_2. assumption.
  - intros j v'' Hj Hlen'. apply Hstep; lia.
Qed.

Lemma transform_in_place_set (a : local) (f : float -> float) (v : list float)
    (m0 : Mem) :
  transform_in_place a f (set a v m0) = Some (set a (map f v) m0).
Proof.
  unfold transform_in_place. rewrite get_set, <- tabulate_at1.
  apply overwrite_loop; [reflexivity|].
  intros k v' Hk Hlen Hsame.
  rewrite load_set, Hsame by lia. fold (read v k). rewrite read_at1 by assumption.
  simpl. apply store_set. lia.
Qed.

Lemma generate_set (a : local) (g : nat -> Mem -> option float) (G : nat -> float)
    (v : list float) (m0 : Mem) :
  (forall i v', i < length v -> g i (set a v' m0) = Some (G i)) ->
  generate a g (set a v m0) = Some (set a (tabulate (length v) G) m0).
Proof.
  intros Hg. unfold generate. rewrite get_set.
  assert (Hgen : forall r pos, r + pos = length v ->
    generate_from a g r pos pos (set a (tabulate pos G ++ drop pos v) m0) =
    Some (set a (tabulate (length v) G) m0)).
  { induction r as [|r IH]; intros pos Hpos; simpl.
    - rewrite drop_ge, app_nil_r by lia. replace pos with (length v) by lia.
      reflexivity.
    - rewrite Hg by lia. simpl. rewrite store_set.
      2:{ rewrite length_app, length_tabulate, length_drop. lia. }
      simpl. rewrite insert_tabulate_drop by lia. apply IH. lia. }
  apply (Hgen (length v) 0). lia.
Qed.

Lemma transform_minus_set (xs ys : list float) (second out : local)
    (v : list float) (m0 : Mem) :
  length v = length xs -> length ys = length xs ->
  (forall v', get second (set out v' m0) = ys) ->
  transform_minus xs second out (set out v m0) =
  Some (set out (tabulate (length xs) (fun k => fsub (at1 xs k) (at1 ys k))) m0).
Proof.
  intros Hv Hys Hsecond. unfold transform_minus.
  apply overwrite_loop; [assumption|].
  intros k v' Hk Hlen Hsame.
  rewrite read_at1 by assumption. simpl.
  unfold load. rewrite Hsecond, read_at1 by lia. simpl.
  apply store_set. lia.
Qed.

(** The nest [for i < R: for j < C: w[i][j] += d i j] on a weight matrix. *)
Lemma update_nest (k : weights) (R C : nat) (step : nat -> nat -> cmd)
    (d : nat -> nat -> float) (w : list (list float)) (m0 : Mem) :
  has_shape R C w = true ->
  (forall i j w' row, i < R -> j < C -> w' !! i = Some row -> length row = C ->
     step i j (set_weights k w' m0) =
     x ← row !! j; Some (set_weights k (<[i:=<[j:=fadd x (d i j)]> row]> w') m0)) ->
  for_range R (fun i => for_range C (step i)) (set_weights k w m0) =
  Some (set_weights k
          (tabulate R (fun i => tabulate C (fun j => fadd (at2 w i j) (d i j)))) m0).
Proof.
  intros Hw Hstep. pose proof Hw as [HR Hrows]%has_shape_spec.
  apply overwrite_loop; [assumption|].
  intros i w' Hi Hlen Hsame.
  destruct (has_shape_row _ _ _ _ Hw Hi) as (row & Hrow & Hrowlen).
  assert (Hrow' : w' !! i = Some row) by (rewrite Hsame by lia; assumption).
  rewrite <- (list_insert_id w' i row Hrow') at 1.
  apply (overwrite_loop (fun row' => set_weights k (<[i:=row']> w'))); [assumption|].
  intros j row' Hj Hlen' Hsame'.
  rewrite (Hstep i j _ row') by
    (rewrite ?list_lookup_insert_eq by lia; (reflexivity || assumption)).
  rewrite Hsame' by lia. fold (read row j). rewrite read_at1 by lia. simpl.
  rewrite list_insert_insert_eq. unfold at2, read2. rewrite Hrow. simpl.
  reflexivity.
Qed.

Lemma map_tabulate {A B : Type} (f : A -> B) (n : nat) (F : nat -> A) :
  map f (tabulate n F) = tabulate n (fun i => f (F i)).
Proof. unfold tabulate. rewrite map_map. reflexivity. Qed.

(** *** What [Query] computes *)

Lemma Query_hidden_step_set (nn : NeuralNetwork) (input v : list float) (i j : nat) :
  well_formed nn -> NumInputNodes <= length input ->
  i < NumHiddenNodes -> j < NumInputNodes ->
  Query_hidden_step input i j (set HiddenValues v (enter nn)) =
  x ← v !! i;
  Some (set HiddenValues
          (<[i:=fadd x (fmul (at1 input j) (at2 (inputWeights nn) i j))]> v)
          (enter nn)).
Proof.
  intros [Hiw _] Hin Hi Hj. unfold Query_hidden_step.
  rewrite read_at1 by lia. bind_step. unfold load2, get_weights.
  rewrite net_set. change (net (enter nn)) with nn.
  rewrite (read2_at2 _ _ _ _ _ Hiw Hi Hj). bind_step.
  rewrite (load_set HiddenValues). destruct (v !! i) as [x|] eqn:Hx; [|reflexivity].
  bind_step. apply (store_set HiddenValues). eapply lookup_lt_Some, Hx.
Qed.

Lemma Query_output_step_set (nn : NeuralNetwork) (hid v : list float) (i j : nat)
    (m0 : Mem) :
  well_formed nn -> net m0 = nn -> hiddenValues m0 = hid ->
  length hid = NumHiddenNodes ->
  i < NumOutputNodes -> j < NumHiddenNodes ->
  Query_output_step i j (set OutputValues v m0) =
  x ← v !! i;
  Some (set OutputValues
          (<[i:=fadd x (fmul (at1 hid j) (at2 (outputWeights nn) i j))]> v) m0).
Proof.
  intros [_ How] Hnet Hhid Hlen Hi Hj. unfold Query_output_step.
  rewrite (load_set_other HiddenValues OutputValues) by discriminate.
  cbn [get]. rewrite Hhid, read_at1 by lia.
  bind_step. unfold load2, get_weights.
  rewrite net_set, Hnet, (read2_at2 _ _ _ _ _ How Hi Hj). bind_step.
  rewrite (load_set OutputValues). destruct (v !! i) as [x|] eqn:Hx; [|reflexivity].
  bind_step. apply (store_set OutputValues). eapply lookup_lt_Some, Hx.
Qed.

(** The loops of [Query] index the input below [NumInputNodes] only. *)
Lemma Query_run_spec_prefix (nn : NeuralNetwork) (input : list float) :
  well_formed nn -> NumInputNodes <= length input ->
  Query_run nn input =
  Some (mkMem nn (tabulate NumHiddenNodes (spec_hidden nn input))
          (tabulate NumOutputNodes (spec_output nn input)) [] []).
Proof.
  intros Hwf Hin. unfold Query_run, Query_body. cbn [block]. unfold declare.
  bind_step.
  rewrite (accumulate_nest HiddenValues _ _ _
             (fun i j => fmul (at1 input j) (at2 (inputWeights nn) i j))).
  2:{ intros i j v Hi Hj _. apply Query_hidden_step_set; assumption. }
  bind_step. rewrite transform_in_place_set, map_tabulate. bind_step.
  fold (spec_hidden nn input).
  rewrite (accumulate_nest OutputValues _ _ _
             (fun i j => fmul (spec_hidden nn input j) (at2 (outputWeights nn) i j))).
  2:{ intros i j v Hi Hj _.
      rewrite (Query_output_step_set nn (tabulate NumHiddenNodes (spec_hidden nn input)));
        [|assumption|reflexivity|reflexivity|apply length_tabulate|assumption..].
      rewrite at1_tabulate by lia. reflexivity. }
  bind_step. rewrite transform_in_place_set, map_tabulate. reflexivity.
Qed.

Lemma Query_run_spec (nn : NeuralNetwork) (input : list float) :
  well_formed nn -> length input = NumInputNodes ->
  Query_run nn input =
  Some (mkMem nn (tabulate NumHiddenNodes (spec_hidden nn input))
          (tabulate NumOutputNodes (spec_output nn input)) [] []).
Proof. intros Hwf Hin. apply Query_run_spec_prefix; [assumption|lia]. Qed.

(** *** What [Train] computes *)

Lemma fold_left_seq_shift {A : Type} (F : A -> nat -> A) (s n : nat) (a : A) :
  fold_left F (seq (S s) n) a = fold_left (fun acc k => F acc (S k)) (seq s n) a.
Proof.
  revert s a. induction n as [|n IH]; intros s a; [reflexivity|].
  simpl. apply IH.
Qed.

(** [std::transform_reduce] accumulates the same sum as the index loop. *)
Lemma transform_reduce_fold (xs ys : list float) (init : float) :
  length xs <= length ys ->
  transform_reduce xs ys init =
  Some (fold_left (fun acc k => fadd acc (fmul (at1 xs k) (at1 ys k)))
          (seq 0 (length xs)) init).
Proof.
  revert ys init. induction xs as [|x xs IH]; intros ys init Hlen; [reflexivity|].
  destruct ys as [|y ys]; [simpl in Hlen; lia|].
  simpl in Hlen. cbn [transform_reduce length]. rewrite IH by lia.
  cbn [seq fold_left]. rewrite fold_left_seq_shift. reflexivity.
Qed.

Lemma at2_row (w : list (list float)) (row : list float) (r c : nat) :
  w !! r = Some row -> at2 w r c = at1 row c.
Proof. intros Hrow. unfold at2, read2. rewrite Hrow. reflexivity. Qed.

Lemma transform_reduce_row (rows cols : nat) (w : list (list float))
    (xs : list float) (r : nat) :
  has_shape rows cols w = true -> r < rows -> length xs = cols ->
  (row ← w !! r; transform_reduce xs row f0) =
  Some (fsum cols (fun k => fmul (at1 xs k) (at2 w r k))).
Proof.
  intros Hw Hr Hxs. destruct (has_shape_row _ _ _ _ Hw Hr) as (row & Hrow & Hlen).
  rewrite Hrow. bind_step. rewrite transform_reduce_fold by lia.
  rewrite Hxs. f_equal.
  change (fsum cols (fun k => fmul (at1 xs k) (at1 row k)) =
          fsum cols (fun k => fmul (at1 xs k) (at2 w r k))).
  apply fsum_ext. intros k _. rewrite (at2_row _ _ _ _ Hrow). reflexivity.
Qed.

Lemma Train_forward_spec (nn : NeuralNetwork) (input : list float) :
  well_formed nn -> length input = NumInputNodes ->
  Train_forward input (enter nn) =
  Some (mkMem nn (tabulate NumHiddenNodes (spec_hidden nn input))
          (tabulate NumOutputNodes (spec_output nn input)) [] []).
Proof.
  intros [Hiw How] Hin. unfold Train_forward. cbn [block]. unfold declare.
  bind_step.
  rewrite (generate_set HiddenValues _
             (fun h => fsum NumInputNodes (fun i =>
                fmul (at1 input i) (at2 (inputWeights nn) h i)))).
  2:{ intros i v' Hi. rewrite length_replicate in Hi. unfold Train_hidden_gen.
      rewrite net_set. change (net (enter nn)) with nn.
      apply (transform_reduce_row _ _ _ _ _ Hiw Hi Hin). }
  rewrite length_replicate. bind_step.
  rewrite transform_in_place_set, map_tabulate. bind_step.
  fold (spec_hidden nn input).
  rewrite (generate_set OutputValues _
             (fun o => fsum NumHiddenNodes (fun h =>
                fmul (spec_hidden nn input h) (at2 (outputWeights nn) o h)))).
  2:{ intros i v' Hi. rewrite length_replicate in Hi. unfold Train_output_gen.
      rewrite net_set.
      change (hiddenValues (set OutputValues v' ?m)) with (hiddenValues m).
      cbn [net hiddenValues set enter].
      rewrite (transform_reduce_row _ _ _ _ _ How Hi) by apply length_tabulate.
      f_equal. apply fsum_ext. intros k Hk. rewrite at1_tabulate by lia. reflexivity. }
  rewrite length_replicate. bind_step.
  rewrite transform_in_place_set, map_tabulate. reflexivity.
Qed.

Lemma Train_hidden_error_step_set (nn : NeuralNetwork) (oerr v : list float)
    (i j : nat) (m0 : Mem) :
  well_formed nn -> net m0 = nn -> outputErrorValues m0 = oerr ->
  length oerr = NumOutputNodes ->
  i < NumHiddenNodes -> j < NumOutputNodes ->
  Train_hidden_error_step i j (set HiddenErrorValues v m0) =
  x ← v !! i;
  Some (set HiddenErrorValues
          (<[i:=fadd x (fmul (at2 (outputWeights nn) j i) (at1 oerr j))]> v) m0).
Proof.
  intros [_ How] Hnet Hoerr Hlen Hi Hj. unfold Train_hidden_error_step.
  unfold load2, get_weights.
  rewrite net_set, Hnet, (read2_at2 _ _ _ _ _ How Hj Hi). bind_step.
  rewrite (load_set_other OutputErrorValues HiddenErrorValues) by discriminate.
  cbn [get]. rewrite Hoerr, read_at1 by lia. bind_step.
  rewrite (load_set HiddenErrorValues).
  destruct (v !! i) as [x|] eqn:Hx; [|reflexivity].
  bind_step. apply (store_set HiddenErrorValues). eapply lookup_lt_Some, Hx.
Qed.

Lemma Train_errors_spec (nn : NeuralNetwork) (input target : list float) :
  well_formed nn -> length target = NumOutputNodes ->
  Train_errors target
    (mkMem nn (tabulate NumHiddenNodes (spec_hidden nn input))
       (tabulate NumOutputNodes (spec_output nn input)) [] []) =
  Some (mkMem nn (tabulate NumHiddenNodes (spec_hidden nn input))
          (tabulate NumOutputNodes (spec_output nn input))
          (tabulate NumOutputNodes (spec_outputError nn input target))
          (tabulate NumHiddenNodes (spec_hiddenError nn input target))).
Proof.
  intros Hwf Htarget. unfold Train_errors. cbn [block]. unfold declare.
  bind_step.
  rewrite (transform_minus_set target (tabulate NumOutputNodes (spec_output nn input)));
    [|rewrite length_replicate; lia|rewrite length_tabulate; lia|reflexivity].
  rewrite Htarget. bind_step.
  rewrite (tabulate_ext _ _ (spec_outputError nn input target)).
  2:{ intros k Hk. rewrite at1_tabulate by lia. reflexivity. }
  rewrite (accumulate_nest HiddenErrorValues _ _ _
             (fun i j => fmul (at2 (outputWeights nn) j i)
                           (spec_outputError nn input target j))).
  2:{ intros i j v Hi Hj _.
      rewrite (Train_hidden_error_step_set nn
                 (tabulate NumOutputNodes (spec_outputError nn input target)));
        [|assumption|reflexivity|reflexivity|apply length_tabulate|assumption..].
      rewrite at1_tabulate by lia. reflexivity. }
  reflexivity.
Qed.

Lemma Train_output_update_step_set (hid out oerr row : list float)
    (w' : list (list float)) (i j : nat) (m0 : Mem) :
  hiddenValues m0 = hid -> outputValues m0 = out -> outputErrorValues m0 = oerr ->
  i < length oerr -> i < length out -> j < length hid ->
  w' !! i = Some row ->
  Train_output_update_step i j (set_weights OutputWeights w' m0) =
  x ← row !! j;
  Some (set_weights OutputWeights
          (<[i:=<[j:=fadd x (delta (learningRate (net m0))
                               (at1 oerr i) (at1 out i) (at1 hid j))]> row]> w') m0).
Proof.
  intros Hhid Hout Hoerr Hi Hi' Hj Hrow. unfold Train_output_update_step.
  rewrite load2_set. unfold read2. rewrite Hrow. bind_step.
  change (read row j) with (row !! j).
  destruct (row !! j) as [x|] eqn:Hx; [|reflexivity]. bind_step.
  unfold load. rewrite !get_local_set_weights. cbn [get].
  rewrite Hhid, Hout, Hoerr, !read_at1 by assumption. bind_step.
  rewrite learningRate_set_weights.
  apply store2_set; [assumption|]. eapply lookup_lt_Some, Hx.
Qed.

Lemma Train_input_update_step_set (input hid herr row : list float)
    (w' : list (list float)) (i j : nat) (m0 : Mem) :
  hiddenValues m0 = hid -> hiddenErrorValues m0 = herr ->
  i < length herr -> i < length hid -> j < length input ->
  w' !! i = Some row ->
  Train_input_update_step input i j (set_weights InputWeights w' m0) =
  x ← row !! j;
  Some (set_weights InputWeights
          (<[i:=<[j:=fadd x (delta (learningRate (net m0))
                               (at1 herr i) (at1 hid i) (at1 input j))]> row]> w') m0).
Proof.
  intros Hhid Hherr Hi Hi' Hj Hrow. unfold Train_input_update_step.
  rewrite load2_set. unfold read2. rewrite Hrow. bind_step.
  change (read row j) with (row !! j).
  destruct (row !! j) as [x|] eqn:Hx; [|reflexivity]. bind_step.
  unfold load. rewrite !get_local_set_weights. cbn [get].
  rewrite Hhid, Hherr, !read_at1 by assumption. bind_step.
  rewrite learningRate_set_weights.
  apply store2_set; [assumption|]. eapply lookup_lt_Some, Hx.
Qed.

Lemma Train_update_output_spec (nn : NeuralNetwork) (hid out oerr herr : list float) :
  has_shape NumOutputNodes NumHiddenNodes (outputWeights nn) = true ->
  length hid = NumHiddenNodes -> length out = NumOutputNodes ->
  length oerr = NumOutputNodes ->
  Train_update_output (mkMem nn hid out oerr herr) =
  Some (mkMem
          (mkNeuralNetwork (learningRate nn) (inputWeights nn)
             (tabulate NumOutputNodes (fun o => tabulate NumHiddenNodes (fun h =>
                fadd (at2 (outputWeights nn) o h)
                  (delta (learningRate nn) (at1 oerr o) (at1 out o) (at1 hid h))))))
          hid out oerr herr).
Proof.
  intros How Hhid Hout Hoerr. destruct nn as [lr iw ow]. cbn [outputWeights] in How.
  unfold Train_update_output.
  change (mkMem (mkNeuralNetwork lr iw ow) hid out oerr herr)
    with (set_weights OutputWeights ow (mkMem (mkNeuralNetwork lr iw ow) hid out oerr herr)).
  rewrite (update_nest OutputWeights _ _ _
             (fun o h => delta lr (at1 oerr o) (at1 out o) (at1 hid h)) _ _ How);
    [reflexivity|].
  intros i j w' row Hi Hj Hrow Hlen.
  apply Train_output_update_step_set; (reflexivity || assumption || lia).
Qed.

Lemma Train_update_input_spec (nn : NeuralNetwork)
    (input hid out oerr herr : list float) :
  has_shape NumHiddenNodes NumInputNodes (inputWeights nn) = true ->
  length input = NumInputNodes ->
  length hid = NumHiddenNodes -> length herr = NumHiddenNodes ->
  Train_update_input input (mkMem nn hid out oerr herr) =
  Some (mkMem
          (mkNeuralNetwork (learningRate nn)
             (tabulate NumHiddenNodes (fun h => tabulate NumInputNodes (fun i =>
                fadd (at2 (inputWeights nn) h i)
                  (delta (learningRate nn) (at1 herr h) (at1 hid h) (at1 input i)))))
             (outputWeights nn))
          hid out oerr herr).
Proof.
  intros Hiw Hin Hhid Hherr. destruct nn as [lr iw ow]. cbn [inputWeights] in Hiw.
  unfold Train_update_input.
  change (mkMem (mkNeuralNetwork lr iw ow) hid out oerr herr)
    with (set_weights InputWeights iw (mkMem (mkNeuralNetwork lr iw ow) hid out oerr herr)).
  rewrite (update_nest InputWeights _ _ _
             (fun h i => delta lr (at1 herr h) (at1 hid h) (at1 input i)) _ _ Hiw);
    [reflexivity|].
  intros i j w' row Hi Hj Hrow Hlen.
  apply Train_input_update_step_set; (reflexivity || assumption || lia).
Qed.

(** The memory when [Train] returns. *)
Lemma Train_run_spec (nn : NeuralNetwork) (input target : list float) :
  well_formed nn ->
  length input = NumInputNodes -> length target = NumOutputNodes ->
  Train_run nn input target =
  Some (mkMem (spec_Train nn input target)
          (tabulate NumHiddenNodes (spec_hidden nn input))
          (tabulate NumOutputNodes (spec_output nn input))
          (tabulate NumOutputNodes (spec_outputError nn input target))
          (tabulate NumHiddenNodes (spec_hiddenError nn input target))).
Proof.
  intros Hwf Hin Htarget. unfold Train_run, Train_body. cbn [block].
  rewrite Train_forward_spec by assumption. bind_step.
  rewrite Train_errors_spec by assumption. bind_step.
  rewrite Train_update_output_spec by (apply Hwf || apply length_tabulate). bind_step.
  rewrite Train_update_input_spec by (apply Hwf || assumption || apply length_tabulate).
  bind_step. unfold spec_Train. cbn [learningRate inputWeights outputWeights].
  do 3 f_equal.
  - apply tabulate_ext. intros h Hh. apply tabulate_ext. intros i Hi.
    rewrite !at1_tabulate by lia. reflexivity.
  - apply tabulate_ext. intros o Ho. apply tabulate_ext. intros h Hh.
    rewrite !at1_tabulate by lia. reflexivity.
Qed.

(** ** The specification's claims about [Query] and [Train] *)

(** C3 (forward pass of [Query]).  For a network of the declared shape and an
    input of [NumInputNodes] entries, [Query] returns an array of
    [NumOutputNodes] entries whose [o]-th entry is
    [sigmoid (sum_h sigmoid (sum_i input[i] * inputWeights[h][i]) * outputWeights[o][h])],
    with [sigmoid x = 1 / (1 + exp (-x))] and every sum accumulated in
    increasing index order from [0.0f]. *)
Theorem Query_forward_pass (nn : NeuralNetwork) (input : list float) :
  well_formed nn -> length input = NumInputNodes ->
  exists r,
    Query nn input = Some r /\
    length r = NumOutputNodes /\
    forall o, o < NumOutputNodes ->
      r !! o =
      Some (sigmoid (fsum NumHiddenNodes (fun h =>
              fmul (sigmoid (fsum NumInputNodes (fun i =>
                      fmul (at1 input i) (at2 (inputWeights nn) h i))))
                   (at2 (outputWeights nn) o h)))).
Proof.
  intros Hwf Hin. unfold Query. rewrite Query_run_spec by assumption.
  eexists. split; [reflexivity|]. cbn [outputValues]. split.
  - apply length_tabulate.
  - intros o Ho. rewrite lookup_tabulate by assumption. reflexivity.
Qed.

(** C1 (single-step update of [Train]).  For a network of the declared shape,
    an input of [NumInputNodes] and a target of [NumOutputNodes] entries, one
    [Train] call replaces every [outputWeights[o][h]] by its old value plus
    [learningRate * (outputError[o] * output[o] * (1 - output[o]) * hidden[h])]
    and every [inputWeights[h][i]] by its old value plus
    [learningRate * (hiddenError[h] * hidden[h] * (1 - hidden[h]) * input[i])],
    where [hidden], [output], [outputError] and [hiddenError] are the
    forward-pass and error values of the old network. *)
Theorem Train_single_step_update (nn : NeuralNetwork) (input target : list float) :
  well_formed nn ->
  length input = NumInputNodes -> length target = NumOutputNodes ->
  exists nn',
    Train nn input target = Some nn' /\
    (forall o h, o < NumOutputNodes -> h < NumHiddenNodes ->
       read2 (outputWeights nn') o h =
       Some (fadd (at2 (outputWeights nn) o h)
               (fmul (learningRate nn)
                  (fmul (fmul (fmul (spec_outputError nn input target o)
                                    (spec_output nn input o))
                              (fsub f1 (spec_output nn input o)))
                        (spec_hidden nn input h))))) /\
    (forall h i, h < NumHiddenNodes -> i < NumInputNodes ->
       read2 (inputWeights nn') h i =
       Some (fadd (at2 (inputWeights nn) h i)
               (fmul (learningRate nn)
                  (fmul (fmul (fmul (spec_hiddenError nn input target h)
                                    (spec_hidden nn input h))
                              (fsub f1 (spec_hidden nn input h)))
                        (at1 input i))))).
Proof.
  intros Hwf Hin Htarget. unfold Train. rewrite Train_run_spec by assumption.
  eexists. split; [reflexivity|]. cbn [net spec_Train outputWeights inputWeights].
  split.
  - intros o h Ho Hh. unfold read2. rewrite lookup_tabulate by assumption.
    bind_step. unfold read. rewrite lookup_tabulate by assumption. reflexivity.
  - intros h i Hh Hi. unfold read2. rewrite lookup_tabulate by assumption.
    bind_step. unfold read. rewrite lookup_tabulate by assumption. reflexivity.
Qed.

(** C2 (ordering of backpropagation).  [Train] first runs its forward pass
    and computes both error arrays while the network is still the one it was
    called with, so that
    [hiddenError[h] = sum_o outputWeights[o][h] * outputError[o]] over the
    output weights held before any mutation; only then does it update
    [outputWeights] (leaving [inputWeights] untouched), and last
    [inputWeights]; the hidden error is not touched again. *)
Theorem Train_hidden_error_before_updates (nn : NeuralNetwork)
    (input target : list float) :
  well_formed nn ->
  length input = NumInputNodes -> length target = NumOutputNodes ->
  exists m1 m2 m3,
    block [Train_forward input; Train_errors target] (enter nn) = Some m1 /\
    net m1 = nn /\
    (forall h, h < NumHiddenNodes ->
       hiddenErrorValues m1 !! h =
       Some (fsum NumOutputNodes (fun o =>
               fmul (at2 (outputWeights nn) o h)
                    (fsub (at1 target o) (at1 (outputValues m1) o))))) /\
    Train_update_output m1 = Some m2 /\
    inputWeights (net m2) = inputWeights nn /\
    hiddenErrorValues m2 = hiddenErrorValues m1 /\
    Train_update_input input m2 = Some m3 /\
    outputWeights (net m3) = outputWeights (net m2) /\
    hiddenErrorValues m3 = hiddenErrorValues m1 /\
    Train_run nn input target = Some m3.
Proof.
  intros Hwf Hin Htarget.
  eexists (mkMem nn _ _ _ _), (mkMem _ _ _ _ _), _.
  split.
  { cbn [block]. rewrite Train_forward_spec by assumption. bind_step.
    rewrite Train_errors_spec by assumption. reflexivity. }
  split; [reflexivity|]. split.
  { intros h Hh. cbn [hiddenErrorValues outputValues].
    rewrite lookup_tabulate by assumption. f_equal. apply fsum_ext. intros o Ho.
    rewrite at1_tabulate by assumption. reflexivity. }
  split.
  { apply Train_update_output_spec; (apply Hwf || apply length_tabulate). }
  split; [reflexivity|]. split; [reflexivity|]. split.
  { apply Train_update_input_spec; (apply Hwf || assumption || apply length_tabulate). }
  split; [reflexivity|]. split; [reflexivity|].
  unfold Train_run, Train_body. cbn [block].
  rewrite Train_forward_spec by assumption. bind_step.
  rewrite Train_errors_spec by assumption. bind_step.
  rewrite Train_update_output_spec by (apply Hwf || apply length_tabulate). bind_step.
  rewrite Train_update_input_spec by (apply Hwf || assumption || apply length_tabulate).
  reflexivity.
Qed.

(** C4 (the forward pass of [Train] is [Query]).  The hidden and output
    activations that [Train] computes with [std::generate] and
    [std::transform_reduce] are, element by element, the hidden activations
    of [Query] and the array [Query] returns. *)
Theorem Train_forward_equals_Query (nn : NeuralNetwork) (input : list float) :
  well_formed nn -> length input = NumInputNodes ->
  exists mq mt,
    Query_run nn input = Some mq /\
    Train_forward input (enter nn) = Some mt /\
    hiddenValues mt = hiddenValues mq /\
    outputValues mt = outputValues mq /\
    Query nn input = Some (outputValues mt).
Proof.
  intros Hwf Hin. unfold Query.
  rewrite Query_run_spec, Train_forward_spec by assumption.
  do 2 eexists. repeat split; reflexivity.
Qed.

(** C7 ([Query] is read-only).  When [Query] returns, the learning rate and
    both weight matrices are the ones the call started with. *)
Theorem Query_read_only (nn : NeuralNetwork) (input : list float) :
  well_formed nn -> length input = NumInputNodes ->
  exists m,
    Query_run nn input = Some m /\
    learningRate (net m) = learningRate nn /\
    inputWeights (net m) = inputWeights nn /\
    outputWeights (net m) = outputWeights nn.
Proof.
  intros Hwf Hin. rewrite Query_run_spec by assumption.
  eexists. repeat split; reflexivity.
Qed.

Lemma has_shape_tabulate (rows cols : nat) (f : nat -> nat -> float) :
  has_shape rows cols (tabulate rows (fun r => tabulate cols (f r))) = true.
Proof.
  apply has_shape_spec. split; [apply length_tabulate|].
  unfold tabulate at 1. apply Forall_map, Forall_forall. intros r _.
  apply length_tabulate.
Qed.

(** C8 (frame of [Train]).  A [Train] call leaves the learning rate as it
    was and both weight matrices with their declared shapes: only weight
    entries change. *)
Theorem Train_frame (nn : NeuralNetwork) (input target : list float) :
  well_formed nn ->
  length input = NumInputNodes -> length target = NumOutputNodes ->
  exists nn',
    Train nn input target = Some nn' /\
    learningRate nn' = learningRate nn /\
    well_formed nn'.
Proof.
  intros Hwf Hin Htarget. unfold Train. rewrite Train_run_spec by assumption.
  eexists. split; [reflexivity|]. split; [reflexivity|].
  split; apply has_shape_tabulate.
Qed.

(** C9 (determinism of inference).  Two successive [Query] calls with the
    same input, the second on the network state that the first leaves
    behind, return identical arrays. *)
Theorem Query_deterministic (nn : NeuralNetwork) (x : list float) :
  well_formed nn -> length x = NumInputNodes ->
  exists m1 m2,
    Query_run nn x = Some m1 /\
    Query_run (net m1) x = Some m2 /\
    outputValues m1 = outputValues m2.
Proof.
  intros Hwf Hx. rewrite Query_run_spec by assumption.
  eexists _, _. split; [reflexivity|]. cbn [net].
  rewrite Query_run_spec by assumption. split; reflexivity.
Qed.

(** [Query] and [Train] take spans of static extent, so their input has
    [NumInputNodes] and the target [NumOutputNodes] entries.  On every such
    call no element access is out of range: both run to completion. *)
Lemma calls_of_declared_shape_succeed (nn : NeuralNetwork)
    (input target : list float) :
  well_formed nn ->
  length input = NumInputNodes -> length target = NumOutputNodes ->
  is_Some (Query nn input) /\ is_Some (Train nn input target).
Proof.
  intros Hwf Hin Htarget. unfold Query, Train.
  rewrite Query_run_spec, Train_run_spec by assumption.
  split; eexists; reflexivity.
Qed.

(** ** Facts about binary32 arithmetic *)

Local Open Scope Z_scope.

Lemma digits2_pos_size (p : positive) : digits2_pos p = Pos.size p.
Proof. induction p as [p IH|p IH|]; simpl; rewrite ?IH; reflexivity. Qed.

Lemma Zdigits2_log2 (z : Z) : 0 < z -> Zdigits2 z = Z.log2 z + 1.
Proof.
  destruct z as [|p|p]; try lia. intros _. simpl. rewrite digits2_pos_size.
  destruct p as [p|p|]; simpl; try reflexivity; lia.
Qed.

Lemma Zdigits2_bounds (z : Z) :
  0 < z -> 2 ^ (Zdigits2 z - 1) <= z < 2 ^ Zdigits2 z.
Proof.
  intros Hz. rewrite Zdigits2_log2 by assumption.
  replace (Z.log2 z + 1 - 1) with (Z.log2 z) by lia.
  apply Z.log2_spec. assumption.
Qed.

Lemma Zdigits2_unique (z d : Z) :
  2 ^ (d - 1) <= z < 2 ^ d -> 1 <= d -> Zdigits2 z = d.
Proof.
  intros Hz Hd. assert (0 < z) by (pose proof (Z.pow_pos_nonneg 2 (d - 1)); lia).
  rewrite Zdigits2_log2 by assumption.
  rewrite (Z.log2_unique z (d - 1)); [lia|lia|].
  replace (Z.succ (d - 1)) with d by lia. assumption.
Qed.

Lemma Zdigits2_nonneg (z : Z) : 0 <= Zdigits2 z.
Proof. destruct z; simpl; lia. Qed.

Lemma Zdigits2_le (z d : Z) : 0 <= z < 2 ^ d -> 0 <= d -> Zdigits2 z <= d.
Proof.
  intros Hz Hd. destruct (Z.eq_dec z 0) as [->|Hne]; [simpl; lia|].
  assert (Hpos : 0 < z) by lia.
  pose proof (Zdigits2_bounds z Hpos) as [Hlo _].
  destruct (Z_lt_le_dec d (Zdigits2 z)) as [Hlt|]; [|assumption].
  assert (2 ^ d <= 2 ^ (Zdigits2 z - 1)) by (apply Z.pow_le_mono_r; lia). lia.
Qed.

Lemma shr_1_m (r : shr_record) : 0 <= shr_m r -> shr_m (shr_1 r) = shr_m r / 2.
Proof.
  destruct r as [m rb sb]. simpl. intros Hm.
  destruct m as [|[p|p|]|p]; simpl; try reflexivity; try lia.
  - rewrite Pos2Z.inj_xI. apply (Z.div_unique _ _ _ 1); lia.
  - rewrite Pos2Z.inj_xO. apply (Z.div_unique _ _ _ 0); lia.
Qed.

Lemma shr_m_iter (p : positive) (r : shr_record) :
  0 <= shr_m r -> shr_m (SpecFloat.iter_pos shr_1 p r) = shr_m r / 2 ^ Zpos p.
Proof.
  revert r. induction p as [p IH|p IH|]; intros r Hr; simpl SpecFloat.iter_pos.
  - assert (H1 : 0 <= shr_m (shr_1 r))
      by (rewrite shr_1_m by assumption; apply Z.div_pos; lia).
    assert (H2 : 0 <= shr_m (SpecFloat.iter_pos shr_1 p (shr_1 r)))
      by (rewrite IH by assumption; apply Z.div_pos; lia).
    rewrite IH, IH, shr_1_m by assumption.
    rewrite !Z.div_div by lia. f_equal.
    replace (Z.pos p~1) with (1 + Z.pos p + Z.pos p) by lia.
    rewrite !Z.pow_add_r by lia. change (2 ^ 1) with 2. ring.
  - assert (H2 : 0 <= shr_m (SpecFloat.iter_pos shr_1 p r))
      by (rewrite IH by assumption; apply Z.div_pos; lia).
    rewrite IH, IH by assumption. rewrite Z.div_div by lia. f_equal.
    replace (Z.pos p~0) with (Z.pos p + Z.pos p) by lia.
    rewrite Z.pow_add_r by lia. reflexivity.
  - rewrite shr_1_m by assumption. reflexivity.
Qed.

Lemma fexp_eq (e : Z) : fexp prec emax e = Z.max (e - 24) (-149).
Proof. reflexivity. Qed.

Lemma shr_record_of_loc_m (m : Z) (l : location) : shr_m (shr_record_of_loc m l) = m.
Proof. destruct l as [|[]]; reflexivity. Qed.

Lemma shr_fexp_spec (m e : Z) (l : location) :
  0 <= m ->
  exists r,
    shr_fexp prec emax m e l = (r, Z.max e (fexp prec emax (Zdigits2 m + e))) /\
    shr_m r = m / 2 ^ Z.max 0 (fexp prec emax (Zdigits2 m + e) - e).
Proof.
  intros Hm. unfold shr_fexp, shr.
  destruct (fexp prec emax (Zdigits2 m + e) - e) as [|p|p] eqn:Hn.
  - eexists. split; [f_equal; lia|]. rewrite shr_record_of_loc_m.
    change (Z.max 0 0) with 0. rewrite Z.pow_0_r, Z.div_1_r. reflexivity.
  - eexists. split; [f_equal; lia|].
    rewrite shr_m_iter by (rewrite shr_record_of_loc_m; assumption).
    rewrite shr_record_of_loc_m. f_equal.
  - eexists. split; [f_equal; lia|]. rewrite shr_record_of_loc_m.
    change (Z.max 0 (Z.neg p)) with 0. rewrite Z.pow_0_r, Z.div_1_r. reflexivity.
Qed.

Lemma round_nearest_even_bounds (m : Z) (l : location) :
  m <= round_nearest_even m l <= m + 1.
Proof. destruct l as [|[]]; simpl; try destruct (Z.even m); lia. Qed.

Lemma div_pow2_lt (m d n : Z) :
  0 <= m < 2 ^ d -> 0 <= n -> 0 <= d -> m / 2 ^ n < 2 ^ Z.max 0 (d - n).
Proof.
  intros Hm Hn Hd. assert (0 < 2 ^ n) by (apply Z.pow_pos_nonneg; lia).
  apply Z.div_lt_upper_bound; [assumption|].
  rewrite <- Z.pow_add_r by lia.
  assert (2 ^ d <= 2 ^ (n + Z.max 0 (d - n))) by (apply Z.pow_le_mono_r; lia). lia.
Qed.

(** The two roundings that [binary_round_aux] can return for a mantissa
    [mx > 0] whose exponent is at most the canonical one. *)
Lemma binary_round_aux_cases (sx : bool) (mx ex : Z) (lx : location) :
  0 < mx -> ex <= fexp prec emax (Zdigits2 mx + ex) ->
  exists m2 e2,
    binary_round_aux prec emax sx mx ex lx = result_of sx m2 e2 /\
    let E1 := fexp prec emax (Zdigits2 mx + ex) in
    let m1 := mx / 2 ^ (E1 - ex) in
    (e2 = E1 /\ m1 <= m2 <= m1 + 1 /\ m2 < 2 ^ 24) \/
    (e2 = E1 + 1 /\ m2 = 2 ^ 23).
Proof.
  intros Hmx Hex. unfold binary_round_aux.
  destruct (shr_fexp_spec mx ex lx) as (r1 & -> & Hr1); [lia|].
  set (E1 := fexp prec emax (Zdigits2 mx + ex)) in *.
  rewrite (Z.max_r ex E1) by assumption.
  rewrite (Z.max_r 0 (E1 - ex)) in Hr1 by lia.
  set (m1 := mx / 2 ^ (E1 - ex)) in *.
  assert (HE1 : -149 <= E1 /\ Zdigits2 mx + ex - 24 <= E1)
    by (unfold E1; rewrite fexp_eq; lia).
  assert (Hm1 : 0 <= m1 < 2 ^ 24).
  { split; [apply Z.div_pos; [lia|apply Z.pow_pos_nonneg; lia]|].
    pose proof (Zdigits2_bounds mx Hmx) as [_ Hhi].
    pose proof (Zdigits2_nonneg mx).
    pose proof (div_pow2_lt mx (Zdigits2 mx) (E1 - ex)) as Hlt.
    assert (2 ^ Z.max 0 (Zdigits2 mx - (E1 - ex)) <= 2 ^ 24)
      by (apply Z.pow_le_mono_r; lia).
    unfold m1. lia. }
  pose proof (round_nearest_even_bounds (shr_m r1) (loc_of_shr_record r1)) as Hrne.
  rewrite Hr1 in *.
  set (m1' := round_nearest_even m1 (loc_of_shr_record r1)) in *.
  destruct (shr_fexp_spec m1' E1 loc_Exact) as (r2 & -> & Hr2); [lia|].
  destruct (Z.eq_dec m1' (2 ^ 24)) as [Hcarry|Hnocarry].
  - (* the rounded mantissa has one bit too many *)
    assert (Hd : Zdigits2 m1' = 25) by (rewrite Hcarry; reflexivity).
    rewrite Hd, fexp_eq in *.
    exists (2 ^ 23), (E1 + 1). split.
    + replace (Z.max E1 (Z.max (25 + E1 - 24) (-149))) with (E1 + 1) by lia.
      replace (Z.max 0 (Z.max (25 + E1 - 24) (-149) - E1)) with 1 in Hr2 by lia.
      rewrite Hr2, Hcarry. reflexivity.
    + right. split; reflexivity.
  - assert (Hd : Zdigits2 m1' <= 24) by (apply Zdigits2_le; lia).
    rewrite fexp_eq in *.
    exists m1', E1. split.
    + replace (Z.max E1 (Z.max (Zdigits2 m1' + E1 - 24) (-149))) with E1 by lia.
      replace (Z.max 0 (Z.max (Zdigits2 m1' + E1 - 24) (-149) - E1)) with 0 in Hr2 by lia.
      rewrite Z.pow_0_r, Z.div_1_r in Hr2.
      rewrite Hr2. reflexivity.
    + left. split; [reflexivity|]. lia.
Qed.

Lemma iter_xO_pow (m d : positive) : Zpos (Pos.iter xO m d) = Zpos m * 2 ^ Zpos d.
Proof.
  induction d as [|d IH] using Pos.peano_ind.
  - simpl. lia.
  - rewrite Pos.iter_succ, Pos2Z.inj_xO, IH, Pos2Z.inj_succ, Z.pow_succ_r by lia. ring.
Qed.

Lemma shl_align_spec (mx : positive) (ex ex' : Z) :
  exists mz,
    shl_align mx ex ex' = (mz, Z.min ex ex') /\
    Zpos mz = Zpos mx * 2 ^ (ex - Z.min ex ex').
Proof.
  unfold shl_align. destruct (ex' - ex) as [|d|d] eqn:Hd.
  - exists mx. split; [f_equal; lia|].
    replace (ex - Z.min ex ex') with 0 by lia. lia.
  - exists mx. split; [f_equal; lia|].
    replace (ex - Z.min ex ex') with 0 by lia. lia.
  - exists (Pos.iter xO mx d). split; [f_equal; lia|].
    rewrite iter_xO_pow. f_equal. f_equal. lia.
Qed.

Lemma Zdigits2_shift (m k : Z) : 0 < m -> 0 <= k -> Zdigits2 (m * 2 ^ k) = Zdigits2 m + k.
Proof.
  intros Hm Hk. pose proof (Zdigits2_bounds m Hm) as [Hlo Hhi].
  assert (1 <= Zdigits2 m).
  { destruct m; simpl; lia. }
  assert (0 < 2 ^ k) by (apply Z.pow_pos_nonneg; lia).
  apply Zdigits2_unique; [|lia].
  replace (Zdigits2 m + k - 1) with (Zdigits2 m - 1 + k) by lia.
  rewrite !Z.pow_add_r by lia. split.
  - apply Z.mul_le_mono_nonneg_r; lia.
  - apply Z.mul_lt_mono_pos_r; lia.
Qed.

(** The roundings that [binary_round] can return. *)
Lemma binary_round_cases (sx : bool) (M : positive) (E : Z) :
  exists m2 e2,
    binary_round prec emax sx M E = result_of sx m2 e2 /\
    let E1 := fexp prec emax (Zdigits2 (Zpos M) + E) in
    let ez := Z.min E E1 in
    let m1 := (Zpos M * 2 ^ (E - ez)) / 2 ^ (E1 - ez) in
    (e2 = E1 /\ m1 <= m2 <= m1 + 1 /\ m2 < 2 ^ 24) \/
    (e2 = E1 + 1 /\ m2 = 2 ^ 23).
Proof.
  unfold binary_round.
  change (Z.pos (digits2_pos M)) with (Zdigits2 (Zpos M)).
  set (E1 := fexp prec emax (Zdigits2 (Zpos M) + E)).
  destruct (shl_align_spec M E E1) as (mz & -> & Hmz).
  assert (Hdig : Zdigits2 (Zpos mz) + Z.min E E1 = Zdigits2 (Zpos M) + E).
  { rewrite Hmz, Zdigits2_shift by lia. lia. }
  destruct (binary_round_aux_cases sx (Zpos mz) (Z.min E E1) loc_Exact)
    as (m2 & e2 & Hres & Hcases); [lia|rewrite Hdig; fold E1; lia|].
  exists m2, e2. split; [assumption|].
  rewrite Hdig in Hcases. fold E1 in Hcases. rewrite Hmz in Hcases. exact Hcases.
Qed.

Lemma div_pow2_ge (M a k n : Z) :
  2 ^ a <= M -> 0 <= a -> 0 <= k -> 0 <= n -> n <= a + k ->
  2 ^ (a + k - n) <= M * 2 ^ k / 2 ^ n.
Proof.
  intros HM Ha Hk Hn Hle.
  assert (0 < 2 ^ n) by (apply Z.pow_pos_nonneg; lia).
  assert (0 < 2 ^ k) by (apply Z.pow_pos_nonneg; lia).
  apply Z.div_le_lower_bound; [assumption|].
  rewrite <- Z.pow_add_r by lia. replace (n + (a + k - n)) with (a + k) by lia.
  rewrite Z.pow_add_r by lia. apply Z.mul_le_mono_nonneg_r; lia.
Qed.

Lemma result_of_pos (sx : bool) (m e : Z) :
  0 < m -> e <= 104 ->
  exists p, m = Zpos p /\ result_of sx m e = S754_finite sx p e.
Proof.
  intros Hm He. destruct m as [|p|p]; try lia. exists p. split; [reflexivity|].
  unfold result_of. change (emax - prec) with 104.
  destruct (Z.leb_spec e 104); [reflexivity|lia].
Qed.

(** [1 + e] for a positive finite [e] is at least 1. *)
Lemma fadd_one_positive (m : positive) (ex : Z) :
  ge_one_float (fadd f1 (S754_finite false m ex)) = true.
Proof.
  unfold fadd, f1, SFadd. cbn [cond_Zopp].
  set (ez := Z.min (-23) ex).
  destruct (shl_align_spec 8388608 (-23) ez) as (a & -> & Ha).
  destruct (shl_align_spec m ex ez) as (b & -> & Hb).
  cbn [fst]. replace (Z.min (-23) ez) with ez in Ha by lia.
  change (Z.pos a + Z.pos b) with (Zpos (a + b)). cbn [binary_normalize].
  destruct (binary_round_cases false (a + b) ez) as (m2 & e2 & -> & Hcases).
  cbv zeta in Hcases.
  set (M := Zpos (a + b)) in *.
  assert (HM : 2 ^ (- ez) < M).
  { unfold M. rewrite Pos2Z.inj_add, Ha.
    change (Z.pos 8388608) with (2 ^ 23). rewrite <- Z.pow_add_r by lia.
    replace (23 + (-23 - ez)) with (- ez) by lia. lia. }
  assert (HD : 1 <= Zdigits2 M + ez).
  { pose proof (Zdigits2_bounds M ltac:(unfold M; lia)) as [_ Hhi].
    pose proof (Zdigits2_nonneg M).
    assert (- ez < Zdigits2 M); [|lia].
    apply (Z.pow_lt_mono_r_iff 2); lia. }
  rewrite fexp_eq in Hcases.
  set (D := Zdigits2 M + ez) in *.
  replace (Z.max (D - 24) (-149)) with (D - 24) in Hcases by lia.
  replace (Z.min ez (D - 24)) with (Z.min ez (D - 24)) in Hcases by reflexivity.
  set (ez' := Z.min ez (D - 24)) in *.
  assert (Hm1 : 2 ^ 23 <= M * 2 ^ (ez - ez') / 2 ^ (D - 24 - ez')).
  { pose proof (Zdigits2_bounds M ltac:(unfold M; lia)) as [Hlo _].
    replace 23 with (Zdigits2 M - 1 + (ez - ez') - (D - 24 - ez')) at 1 by (unfold D; lia).
    apply div_pow2_ge; unfold D in *; lia. }
  assert (He2 : e2 <= 104 \/ 104 < e2) by lia.
  destruct Hcases as [(-> & Hm2 & Hlt)|(-> & ->)].
  - destruct He2 as [He2|He2].
    + destruct (result_of_pos false m2 (D - 24)) as (p & -> & ->); [lia|lia|].
      simpl. apply andb_true_iff. split; [|apply Z.leb_le; lia].
      apply andb_true_iff. split; [|apply Z.leb_le; lia].
      apply andb_true_iff. split; [apply Z.leb_le|apply Z.ltb_lt]; lia.
    + destruct m2 as [|p|p]; try lia. unfold result_of.
      change (emax - prec) with 104.
      destruct (Z.leb_spec (D - 24) 104); [lia|reflexivity].
  - destruct He2 as [He2|He2].
    + destruct (result_of_pos false (2 ^ 23) (D - 24 + 1)) as (p & Hp & ->); [lia|lia|].
      simpl. rewrite <- Hp. apply andb_true_iff. split; [|apply Z.leb_le; lia].
      apply andb_true_iff. split; [|apply Z.leb_le; lia]. reflexivity.
    + unfold result_of. change (emax - prec) with 104. change (2 ^ 23) with 8388608.
      cbv iota beta.
      destruct (Z.leb_spec (D - 24 + 1) 104); [lia|reflexivity].
Qed.

Lemma fdiv_one_pow2 (ey : Z) :
  -23 <= ey <= 104 -> unit_float (fdiv f1 (S754_finite false 8388608 ey)) = true.
Proof.
  intros Hey.
  assert (Hall : forallb (fun k =>
            unit_float (fdiv f1 (S754_finite false 8388608 (Z.of_nat k - 23))))
            (seq 0 128) = true) by (vm_compute; reflexivity).
  rewrite forallb_forall in Hall.
  specialize (Hall (Z.to_nat (ey + 23))).
  replace (Z.of_nat (Z.to_nat (ey + 23)) - 23) with ey in Hall by lia.
  apply Hall, in_seq. lia.
Qed.

(** [1 / d] for a finite [d >= 1] is a canonical number of the unit interval. *)
Lemma fdiv_one_ge_one (my : positive) (ey : Z) :
  2 ^ 23 <= Zpos my < 2 ^ 24 -> -23 <= ey <= 104 ->
  unit_float (fdiv f1 (S754_finite false my ey)) = true.
Proof.
  intros Hmy Hey.
  destruct (Z.eq_dec (Zpos my) (2 ^ 23)) as [Heq|Hne].
  { replace my with 8388608%positive by (change (2 ^ 23) with (Zpos 8388608) in Heq; congruence).
    apply fdiv_one_pow2. assumption. }
  unfold fdiv, f1, SFdiv, SFdiv_core_binary.
  rewrite (Zdigits2_unique (Zpos my) 24) by lia.
  change (Zdigits2 (Z.pos 8388608)) with 24. rewrite fexp_eq.
  set (e' := Z.min (Z.max (24 + -23 - (24 + ey) - 24) (-149)) (-23 - ey)).
  set (s := -23 - ey - e').
  assert (Hs : (s = 24 /\ e' = -47 - ey /\ ey <= 102) \/
               (s = 23 /\ e' = -149) \/ (s = 22 /\ e' = -149)) by lia.
  assert (He' : -149 <= e' <= -24) by lia.
  set (m' := match s with
             | Z0 => Z.pos 8388608
             | Zpos _ => Z.shiftl (Z.pos 8388608) s
             | Zneg _ => 0
             end).
  assert (Hm' : m' = 2 ^ (23 + s)).
  { unfold m'. destruct Hs as [(-> & _)|[(-> & _)|(-> & _)]]; reflexivity. }
  pose proof (Z_div_mod m' (Zpos my) ltac:(lia)) as Hdiv.
  destruct (Z.div_eucl m' (Zpos my)) as [q r]. destruct Hdiv as [Hq Hr].
  assert (Hqb : 2 ^ (s - 1) <= q < 2 ^ s).
  { rewrite Hm' in Hq.
    destruct Hs as [(-> & _)|[(-> & _)|(-> & _)]];
      change (2 ^ 23) with 8388608 in *; change (2 ^ 24) with 16777216 in *;
      simpl in Hq |- *; nia. }
  assert (Hdq : Zdigits2 q = s) by (apply Zdigits2_unique; lia).
  destruct (binary_round_aux_cases (xorb false false) q e' (new_location (Zpos my) r))
    as (m2 & e2 & -> & Hcases).
  { assert (0 < 2 ^ (s - 1)) by (apply Z.pow_pos_nonneg; lia). lia. }
  { rewrite Hdq, fexp_eq. lia. }
  cbv zeta in Hcases. rewrite Hdq, fexp_eq in Hcases.
  replace (Z.max (s + e' - 24) (-149)) with e' in Hcases by lia.
  rewrite Z.sub_diag, Z.pow_0_r, Z.div_1_r in Hcases.
  assert (0 < q) by (assert (0 < 2 ^ (s - 1)) by (apply Z.pow_pos_nonneg; lia); lia).
  cbn [xorb].
  destruct Hcases as [(-> & Hm2 & Hlt)|(-> & ->)].
  - destruct (result_of_pos false m2 e') as (p & -> & ->); [lia|lia|].
    simpl. apply andb_true_iff. split; [apply Z.ltb_lt; lia|].
    apply orb_true_iff. left. apply Z.leb_le. lia.
  - destruct (result_of_pos false (2 ^ 23) (e' + 1)) as (p & Hp & ->); [lia|lia|].
    unfold unit_float. rewrite <- Hp. apply andb_true_iff. split; [reflexivity|].
    apply orb_true_iff.
    destruct (Z.eq_dec e' (-24)) as [->|]; [right; reflexivity|].
    left. apply Z.leb_le. lia.
Qed.

Lemma unit_float_in_unit_interval (y : float) :
  unit_float y = true -> in_unit_interval y = true.
Proof.
  intros Hy. destruct y as [[]|[]| |[] m e]; try discriminate Hy.
  { reflexivity. }
  apply andb_true_iff in Hy as [Hm He].
  unfold in_unit_interval, fleb, SFleb, f0, f1. cbn [SFcompare andb].
  apply orb_true_iff in He as [He|[He Hm']%andb_true_iff].
  - apply Z.leb_le in He. destruct (Z.compare_spec e (-23)); (reflexivity || lia).
  - apply Z.eqb_eq in He. apply Z.eqb_eq in Hm'. subst e.
    change (2 ^ 23) with (Zpos 8388608) in Hm'. injection Hm' as ->. reflexivity.
Qed.

Lemma unit_float_finite (y : float) : unit_float y = true -> is_finite y = true.
Proof. intros Hy. destruct y as [[]|[]| |[] m e]; try discriminate Hy; reflexivity. Qed.

(** [1 - y] is finite for a canonical [y] of the unit interval. *)
Lemma fsub_one_unit (y : float) :
  unit_float y = true -> is_finite (fsub f1 y) = true.
Proof.
  intros Hy. destruct y as [[]|[]| |[] m e]; try discriminate Hy.
  { reflexivity. }
  apply andb_true_iff in Hy as [Hm He]. apply Z.ltb_lt in Hm.
  apply orb_true_iff in He as [He|[He Hm']%andb_true_iff].
  2:{ apply Z.eqb_eq in He. apply Z.eqb_eq in Hm'. subst e.
      change (2 ^ 23) with (Zpos 8388608) in Hm'. injection Hm' as ->. reflexivity. }
  apply Z.leb_le in He.
  unfold fsub, f1, SFsub. cbn [cond_Zopp].
  replace (Z.min (-23) e) with e by lia.
  destruct (shl_align_spec 8388608 (-23) e) as (a & -> & Ha).
  destruct (shl_align_spec m e e) as (b & -> & Hb).
  cbn [fst]. replace (Z.min (-23) e) with e in Ha by lia.
  replace (e - Z.min e e) with 0 in Hb by lia.
  change (Z.pos 8388608) with (2 ^ 23) in Ha. rewrite <- Z.pow_add_r in Ha by lia.
  replace (23 + (-23 - e)) with (- e) in Ha by lia.
  assert (2 ^ 24 <= 2 ^ (- e)) by (apply Z.pow_le_mono_r; lia).
  destruct (Z.pos a - Z.pos b) as [|p|p] eqn:HM; try lia.
  cbn [binary_normalize].
  destruct (binary_round_cases false p e) as (m2 & e2 & -> & Hcases).
  cbv zeta in Hcases. rewrite fexp_eq in Hcases.
  assert (HD : Zdigits2 (Zpos p) <= - e) by (apply Zdigits2_le; lia).
  set (E1 := Z.max (Zdigits2 (Z.pos p) + e - 24) (-149)) in *.
  assert (0 <= Z.pos p * 2 ^ (e - Z.min e E1) / 2 ^ (E1 - Z.min e E1)).
  { apply Z.div_pos; [|apply Z.pow_pos_nonneg; lia].
    apply Z.mul_nonneg_nonneg; [lia|apply Z.pow_nonneg; lia]. }
  assert (He2 : 0 <= m2 /\ e2 <= 104) by (destruct Hcases as [(-> & ? & ?)|(-> & ->)]; lia).
  destruct m2 as [|q|q]; [reflexivity| |lia].
  destruct (result_of_pos false (Zpos q) e2) as (q' & _ & ->); [lia|lia|reflexivity].
Qed.

Lemma fsub_diag (x : float) : is_finite x = true -> fsub x x = f0.
Proof.
  intros Hx. destruct x as [[]|[]| |s m e]; try discriminate Hx; try reflexivity.
  unfold fsub, SFsub. rewrite Z.sub_diag. reflexivity.
Qed.

Lemma fmul_zero_l (x y : float) :
  is_zero x = true -> is_finite y = true -> is_zero (fmul x y) = true.
Proof.
  intros Hx Hy. destruct x as [sx| | |]; try discriminate Hx.
  destruct y as [sy|sy| |sy my ey]; try discriminate Hy; reflexivity.
Qed.

Lemma fmul_zero_r (x y : float) :
  is_finite x = true -> is_zero y = true -> is_zero (fmul x y) = true.
Proof.
  intros Hx Hy. destruct y as [sy| | |]; try discriminate Hy.
  destruct x as [sx|sx| |sx mx ex]; try discriminate Hx; reflexivity.
Qed.

Lemma fadd_zero_zero (x y : float) :
  is_zero x = true -> is_zero y = true -> is_zero (fadd x y) = true.
Proof.
  intros Hx Hy. destruct x as [[]| | |]; try discriminate Hx;
  destruct y as [[]| | |]; try discriminate Hy; reflexivity.
Qed.

(** Adding a zero leaves a finite number as it is, except that a zero may
    change its sign. *)
Lemma fadd_zero_r (w z : float) :
  is_finite w = true -> is_zero z = true ->
  fadd w z = w \/ (is_zero w = true /\ is_zero (fadd w z) = true).
Proof.
  intros Hw Hz. destruct z as [sz| | |]; try discriminate Hz.
  destruct w as [[]|sw| |sw mw ew]; try discriminate Hw; destruct sz;
    try (left; reflexivity); right; split; reflexivity.
Qed.

Local Close Scope Z_scope.

(** ** The range of the activations *)

(** [sigmoid] returns NaN or a canonical number of the unit interval. *)
Lemma sigmoid_unit (x : float) :
  exp_sign_clear exp -> is_nan (sigmoid x) = true \/ unit_float (sigmoid x) = true.
Proof.
  intros Hexp. unfold sigmoid. specialize (Hexp (fneg x)).
  destruct (exp (fneg x)) as [[]|[]| |[] m e]; try discriminate Hexp.
  - right. reflexivity.
  - right. reflexivity.
  - left. reflexivity.
  - right. pose proof (fadd_one_positive m e) as Hd.
    destruct (fadd f1 (S754_finite false m e)) as [[]|[]| |[] m' e'];
      try discriminate Hd.
    + reflexivity.
    + apply andb_true_iff in Hd as [Hd He2]. apply andb_true_iff in Hd as [Hd He1].
      apply andb_true_iff in Hd as [Hlo Hhi].
      apply fdiv_one_ge_one; lia.
Qed.

Lemma Forall_tabulate {A : Type} (P : A -> Prop) (n : nat) (f : nat -> A) :
  (forall i, i < n -> P (f i)) -> Forall P (tabulate n f).
Proof.
  intros Hf. unfold tabulate. apply Forall_map, Forall_forall.
  intros i Hi%list_elem_of_In%in_seq. apply Hf. lia.
Qed.

(** C5, as amended (range of the outputs).  Whenever [std::exp] returns
    no negative value, every entry of the array that [Query] returns is NaN
    or lies in the closed interval from 0 to 1. *)
Theorem Query_output_range (nn : NeuralNetwork) (input : list float) :
  exp_sign_clear exp ->
  well_formed nn -> length input = NumInputNodes ->
  exists r,
    Query nn input = Some r /\
    Forall (fun y => is_nan y = true \/ in_unit_interval y = true) r.
Proof.
  intros Hexp Hwf Hin. unfold Query. rewrite Query_run_spec by assumption.
  eexists. split; [reflexivity|]. cbn [outputValues].
  apply Forall_tabulate. intros o _. unfold spec_output.
  destruct (sigmoid_unit
              (fsum NumHiddenNodes (fun h =>
                 fmul (spec_hidden nn input h) (at2 (outputWeights nn) o h))) Hexp)
    as [Hnan|Hunit]; [left; assumption|right].
  apply unit_float_in_unit_interval. assumption.
Qed.

(** ** Training on a target that equals the output *)

Lemma fsum_zero (n : nat) (t : nat -> float) :
  (forall k, k < n -> is_zero (t k) = true) -> is_zero (fsum n t) = true.
Proof.
  intros Ht. unfold fsum. induction n as [|n IH]; [reflexivity|].
  rewrite seq_S, fold_left_app. simpl. apply fadd_zero_zero.
  - apply IH. intros k Hk. apply Ht. lia.
  - apply Ht. lia.
Qed.

Lemma at1_finite (v : list float) (i : nat) :
  forallb is_finite v = true -> is_finite (at1 v i) = true.
Proof.
  intros Hv. unfold at1, read. destruct (v !! i) as [x|] eqn:Hx; [|reflexivity].
  rewrite forallb_forall in Hv. apply Hv, list_elem_of_In, list_elem_of_lookup.
  exists i. assumption.
Qed.

Lemma at2_finite (w : list (list float)) (r c : nat) :
  forallb (forallb is_finite) w = true -> is_finite (at2 w r c) = true.
Proof.
  intros Hw. unfold at2, read2. destruct (w !! r) as [row|] eqn:Hrow; [|reflexivity].
  apply (at1_finite row c). rewrite forallb_forall in Hw.
  apply Hw, list_elem_of_In, list_elem_of_lookup. exists r. assumption.
Qed.

Lemma feqb_refl (w : float) : is_finite w = true -> feqb w w = true.
Proof.
  intros Hw. destruct w as [[]|[]| |[] m e]; try discriminate Hw; try reflexivity;
    unfold feqb, SFeqb, SFcompare; rewrite Z.compare_refl, Pos.compare_cont_refl;
    reflexivity.
Qed.

Lemma feqb_zero (x y : float) : is_zero x = true -> is_zero y = true -> feqb x y = true.
Proof.
  intros Hx Hy. destruct x; try discriminate Hx. destruct y; try discriminate Hy.
  reflexivity.
Qed.

(** The weight delta vanishes when the error is a zero. *)
Lemma delta_zero (lr error value source : float) :
  is_finite lr = true -> is_zero error = true -> unit_float value = true ->
  is_finite source = true ->
  is_zero (delta lr error value source) = true.
Proof.
  intros Hlr Herr Hval Hsrc. unfold delta.
  apply fmul_zero_r; [assumption|].
  apply fmul_zero_l; [|assumption].
  apply fmul_zero_l; [|apply fsub_one_unit; assumption].
  apply fmul_zero_l; [assumption|apply unit_float_finite; assumption].
Qed.

(** A finite weight to which a zero is added keeps its value. *)
Lemma fadd_zero_same (w z : float) :
  is_finite w = true -> is_zero z = true ->
  feqb (fadd w z) w = true /\ (is_zero w = false -> fadd w z = w).
Proof.
  intros Hw Hz. destruct (fadd_zero_r w z Hw Hz) as [->|[Hw0 Hs0]].
  - split; [apply feqb_refl; assumption|reflexivity].
  - split; [apply feqb_zero; assumption|]. rewrite Hw0. discriminate.
Qed.

Lemma forallb_tabulate {A : Type} (P : A -> bool) (n : nat) (f : nat -> A) (i : nat) :
  forallb P (tabulate n f) = true -> i < n -> P (f i) = true.
Proof.
  intros Hall Hi. rewrite forallb_forall in Hall.
  apply Hall, list_elem_of_In, list_elem_of_lookup. exists i.
  apply lookup_tabulate. assumption.
Qed.

(** C10, as amended (zero residual).  Let the learning rate, the weights and
    the input be finite, let the forward pass produce no NaN, and let the
    target be the array that [Query] returns for the input.  Then after
    [Train] every weight compares equal to its old value, and every weight
    that was not a zero is exactly its old value. *)
Theorem Train_zero_residual (nn : NeuralNetwork) (input target : list float)
    (mq : Mem) :
  exp_sign_clear exp ->
  well_formed nn -> length input = NumInputNodes ->
  finite_network nn = true -> forallb is_finite input = true ->
  Query_run nn input = Some mq ->
  forallb (fun y => negb (is_nan y)) (hiddenValues mq ++ outputValues mq) = true ->
  target = outputValues mq ->
  exists nn',
    Train nn input target = Some nn' /\
    (forall o h, o < NumOutputNodes -> h < NumHiddenNodes ->
       exists w',
         read2 (outputWeights nn') o h = Some w' /\
         feqb w' (at2 (outputWeights nn) o h) = true /\
         (is_zero (at2 (outputWeights nn) o h) = false ->
          w' = at2 (outputWeights nn) o h)) /\
    (forall h i, h < NumHiddenNodes -> i < NumInputNodes ->
       exists w',
         read2 (inputWeights nn') h i = Some w' /\
         feqb w' (at2 (inputWeights nn) h i) = true /\
         (is_zero (at2 (inputWeights nn) h i) = false ->
          w' = at2 (inputWeights nn) h i)).
Proof.
  intros Hexp Hwf Hin Hfin Hinput Hq Hnonan ->.
  rewrite Query_run_spec in Hq by assumption. injection Hq as <-.
  cbn [hiddenValues outputValues] in *.
  rewrite forallb_app in Hnonan. apply andb_true_iff in Hnonan as [Hhid Hout].
  apply andb_true_iff in Hfin as [Hfin How]. apply andb_true_iff in Hfin as [Hlr Hiw].
  assert (Hh : forall h, h < NumHiddenNodes -> unit_float (spec_hidden nn input h) = true).
  { intros h Hlt. pose proof (forallb_tabulate _ _ _ h Hhid Hlt) as Hn.
    unfold spec_hidden in *.
    destruct (sigmoid_unit (fsum NumInputNodes (fun i =>
                fmul (at1 input i) (at2 (inputWeights nn) h i))) Hexp) as [Hnan|Hu];
      [rewrite Hnan in Hn; discriminate Hn|assumption]. }
  assert (Ho : forall o, o < NumOutputNodes -> unit_float (spec_output nn input o) = true).
  { intros o Hlt. pose proof (forallb_tabulate _ _ _ o Hout Hlt) as Hn.
    unfold spec_output in *.
    destruct (sigmoid_unit (fsum NumHiddenNodes (fun h =>
                fmul (spec_hidden nn input h) (at2 (outputWeights nn) o h))) Hexp)
      as [Hnan|Hu]; [rewrite Hnan in Hn; discriminate Hn|assumption]. }
  set (target := tabulate NumOutputNodes (spec_output nn input)).
  assert (Herr : forall o, o < NumOutputNodes ->
            is_zero (spec_outputError nn input target o) = true).
  { intros o Hlt. unfold spec_outputError, target. rewrite at1_tabulate by assumption.
    rewrite fsub_diag; [reflexivity|]. apply unit_float_finite, Ho. assumption. }
  assert (Hherr : forall h, is_zero (spec_hiddenError nn input target h) = true).
  { intros h. unfold spec_hiddenError. apply fsum_zero. intros o Hlt.
    apply fmul_zero_r; [apply at2_finite; assumption|apply Herr; assumption]. }
  unfold Train. rewrite Train_run_spec by (assumption || apply length_tabulate).
  eexists. split; [reflexivity|]. cbn [net spec_Train outputWeights inputWeights].
  split.
  - intros o h Hlt Hlt'. eexists. split.
    { unfold read2. rewrite lookup_tabulate by assumption. bind_step.
      unfold read. rewrite lookup_tabulate by assumption. reflexivity. }
    apply fadd_zero_same; [apply at2_finite; assumption|].
    apply delta_zero; auto using unit_float_finite.
  - intros h i Hlt Hlt'. eexists. split.
    { unfold read2. rewrite lookup_tabulate by assumption. bind_step.
      unfold read. rewrite lookup_tabulate by assumption. reflexivity. }
    apply fadd_zero_same; [apply at2_finite; assumption|].
    apply delta_zero; auto using at1_finite.
Qed.

(** ** What the statements leave alone *)

Lemma preserves_block (J : NeuralNetwork -> Prop) (cs : list cmd) :
  Forall (preserves J) cs -> preserves J (block cs).
Proof.
  induction 1 as [|c cs Hc _ IH]; intros m m' Hrun HJ.
  - injection Hrun as <-. assumption.
  - cbn [block] in Hrun. destruct (c m) as [m1|] eqn:Hm1; [|discriminate Hrun].
    eapply IH; [exact Hrun|]. eapply Hc; eassumption.
Qed.

Lemma preserves_for_range (J : NeuralNetwork -> Prop) (n : nat) (body : nat -> cmd) :
  (forall k, preserves J (body k)) -> preserves J (for_range n body).
Proof.
  intros Hbody. induction n as [|n IH]; intros m m' Hrun HJ.
  - injection Hrun as <-. assumption.
  - rewrite for_range_S in Hrun.
    destruct (for_range n body m) as [m1|] eqn:Hm1; [|discriminate Hrun].
    eapply Hbody; [exact Hrun|]. eapply IH; [exact Hm1|assumption].
Qed.

Lemma preserves_store (J : NeuralNetwork -> Prop) (a : local) (i : nat) (x : float) :
  preserves J (store a i x).
Proof.
  intros m m' Hrun HJ. unfold store in Hrun.
  destruct (write (get a m) i x) as [v|]; [|discriminate Hrun].
  injection Hrun as <-. rewrite net_set. assumption.
Qed.

Lemma preserves_declare (J : NeuralNetwork -> Prop) (a : local) (n : nat) :
  preserves J (declare a n).
Proof. intros m m' Hrun HJ. injection Hrun as <-. rewrite net_set. assumption. Qed.

(** A statement that evaluates an expression and then runs [k] on its value. *)
Lemma preserves_bind {A : Type} (J : NeuralNetwork -> Prop)
    (e : Mem -> option A) (k : A -> cmd) :
  (forall x, preserves J (k x)) -> preserves J (fun m => x ← e m; k x m).
Proof.
  intros Hk m m' Hrun HJ. destruct (e m) as [x|]; [|discriminate Hrun].
  eapply Hk; eassumption.
Qed.

Lemma preserves_transform_in_place (J : NeuralNetwork -> Prop) (a : local)
    (f : float -> float) :
  preserves J (transform_in_place a f).
Proof.
  intros m m' Hrun HJ. unfold transform_in_place in Hrun.
  eapply preserves_for_range; [|exact Hrun|assumption].
  intros k. apply (preserves_bind J (load a k)). intros x. apply preserves_store.
Qed.

Lemma preserves_generate (J : NeuralNetwork -> Prop) (a : local)
    (g : nat -> Mem -> option float) :
  preserves J (generate a g).
Proof.
  assert (Hfrom : forall r pos i, preserves J (generate_from a g r pos i)).
  { induction r as [|r IH]; intros pos i m m' Hrun HJ.
    - injection Hrun as <-. assumption.
    - cbn [generate_from] in Hrun.
      destruct (g i m) as [x|]; [|discriminate Hrun].
      cbn [mbind option_bind] in Hrun.
      destruct (store a pos x m) as [m1|] eqn:Hm1; [|discriminate Hrun].
      eapply IH; [exact Hrun|]. eapply preserves_store; eassumption. }
  intros m m' Hrun HJ. eapply Hfrom; eassumption.
Qed.

Lemma preserves_transform_minus (J : NeuralNetwork -> Prop) (xs : list float)
    (second out : local) :
  preserves J (transform_minus xs second out).
Proof.
  apply preserves_for_range. intros k.
  apply (preserves_bind J (fun _ => read xs k)). intros x.
  apply (preserves_bind J (load second k)). intros y. apply preserves_store.
Qed.

Lemma preserves_Query_body (J : NeuralNetwork -> Prop) (input : list float) :
  preserves J (Query_body input).
Proof.
  apply preserves_block.
  constructor; [apply preserves_declare|]. constructor; [|constructor;
    [apply preserves_transform_in_place|constructor;
      [apply preserves_declare|constructor;
        [|constructor; [apply preserves_transform_in_place|constructor]]]]].
  - apply preserves_for_range. intros i. apply preserves_for_range. intros j.
    apply (preserves_bind J (fun _ => read input j)). intros x.
    apply (preserves_bind J (load2 InputWeights i j)). intros w.
    apply (preserves_bind J (load HiddenValues i)). intros h. apply preserves_store.
  - apply preserves_for_range. intros i. apply preserves_for_range. intros j.
    apply (preserves_bind J (load HiddenValues j)). intros x.
    apply (preserves_bind J (load2 OutputWeights i j)). intros w.
    apply (preserves_bind J (load OutputValues i)). intros o. apply preserves_store.
Qed.

(** X1.  Whatever the network and the input are, also of other shapes than
    the declared ones: when [Query] runs to its end, the network in memory
    is the one it was called with. *)
Theorem Query_never_writes_network (nn : NeuralNetwork) (input : list float) (m : Mem) :
  Query_run nn input = Some m -> net m = nn.
Proof.
  intros Hrun.
  exact (preserves_Query_body (fun n => n = nn) input (enter nn) m Hrun eq_refl).
Qed.

Lemma row_lengths_insert (w : list (list float)) (r : nat) (row row' : list float) :
  w !! r = Some row -> length row' = length row ->
  row_lengths (<[r:=row']> w) = row_lengths w.
Proof.
  intros Hrow Hlen. unfold row_lengths.
  change (length <$> <[r:=row']> w = length <$> w).
  rewrite list_fmap_insert. apply list_insert_id.
  rewrite list_lookup_fmap, Hrow. cbn. congruence.
Qed.

(** An assignment to a weight keeps the learning rate and every row length. *)
Lemma preserves_store2 (nn : NeuralNetwork) (k : weights) (r c : nat)
    (F : Mem -> float) :
  preserves (same_frame nn) (fun m => store2 k r c (F m) m).
Proof.
  intros m m' Hrun (Hlr & Hiw & How). unfold store2, write2, write in Hrun.
  destruct (get_weights k m !! r) as [row|] eqn:Hrow; [|discriminate Hrun].
  cbn [mbind option_bind] in Hrun.
  destruct (decide (c < length row)); [|discriminate Hrun].
  cbn [mbind option_bind] in Hrun. injection Hrun as <-.
  assert (Hlen : row_lengths (<[r:=<[c:=F m]> row]> (get_weights k m)) =
                 row_lengths (get_weights k m))
    by (apply (row_lengths_insert _ _ row); [assumption|apply length_insert]).
  destruct k; cbn [get_weights] in Hlen; repeat split;
    cbn [get_weights set_weights set_net net learningRate inputWeights outputWeights];
    congruence.
Qed.

Lemma preserves_Train_body (nn : NeuralNetwork) (input target : list float) :
  preserves (same_frame nn) (Train_body input target).
Proof.
  set (J := same_frame nn).
  apply preserves_block.
  constructor; [|constructor; [|constructor; [|constructor; [|constructor]]]].
  - apply preserves_block.
    constructor; [apply preserves_declare|].
    constructor; [apply preserves_generate|].
    constructor; [apply preserves_transform_in_place|].
    constructor; [apply preserves_declare|].
    constructor; [apply preserves_generate|].
    constructor; [apply preserves_transform_in_place|constructor].
  - apply preserves_block.
    constructor; [apply preserves_declare|].
    constructor; [apply preserves_transform_minus|].
    constructor; [apply preserves_declare|]. constructor; [|constructor].
    apply preserves_for_range. intros i. apply preserves_for_range. intros j.
    apply (preserves_bind J (load2 OutputWeights j i)). intros w.
    apply (preserves_bind J (load OutputErrorValues j)). intros e.
    apply (preserves_bind J (load HiddenErrorValues i)). intros h.
    apply preserves_store.
  - apply preserves_for_range. intros i. apply preserves_for_range. intros j.
    apply (preserves_bind J (load2 OutputWeights i j)). intros w.
    apply (preserves_bind J (load OutputErrorValues i)). intros e.
    apply (preserves_bind J (load OutputValues i)). intros o.
    apply (preserves_bind J (load HiddenValues j)). intros h.
    apply (preserves_store2 nn OutputWeights i j
             (fun m => fadd w (delta (learningRate (net m)) e o h))).
  - apply preserves_for_range. intros i. apply preserves_for_range. intros j.
    apply (preserves_bind J (load2 InputWeights i j)). intros w.
    apply (preserves_bind J (load HiddenErrorValues i)). intros e.
    apply (preserves_bind J (load HiddenValues i)). intros h.
    apply (preserves_bind J (fun _ => read input j)). intros x.
    apply (preserves_store2 nn InputWeights i j
             (fun m => fadd w (delta (learningRate (net m)) e h x))).
Qed.

(** X2.  Whatever the shapes of the network, the input and the target are:
    when [Train] runs to its end, the network has the learning rate it had
    and weight matrices with the same number of rows and the same row
    lengths; [Train] only assigns to existing weight entries. *)
Theorem Train_keeps_rate_and_shapes (nn nn' : NeuralNetwork)
    (input target : list float) :
  Train nn input target = Some nn' ->
  learningRate nn' = learningRate nn /\
  row_lengths (inputWeights nn') = row_lengths (inputWeights nn) /\
  row_lengths (outputWeights nn') = row_lengths (outputWeights nn).
Proof.
  unfold Train, Train_run. intros Hrun.
  destruct (Train_body input target (enter nn)) as [m|] eqn:Hm; [|discriminate Hrun].
  injection Hrun as <-.
  apply (preserves_Train_body nn input target (enter nn) m Hm).
  repeat split.
Qed.

(** ** The order of the two weight updates *)

(** X3.  The two update loops of [Train] commute: on a memory whose network
    and local arrays have the declared shapes, updating [outputWeights] and
    then [inputWeights], as [Train] does, leaves the same memory as updating
    [inputWeights] first.  (Only the error computation has to come before
    the update of [outputWeights].) *)
Theorem Train_updates_commute (m : Mem) (input : list float) :
  well_formed (net m) -> length input = NumInputNodes ->
  length (hiddenValues m) = NumHiddenNodes ->
  length (outputValues m) = NumOutputNodes ->
  length (outputErrorValues m) = NumOutputNodes ->
  length (hiddenErrorValues m) = NumHiddenNodes ->
  exists m',
    Train_update_output m ≫= Train_update_input input = Some m' /\
    Train_update_input input m ≫= Train_update_output = Some m'.
Proof.
  destruct m as [nn hid out oerr herr]. cbn [net hiddenValues outputValues
    outputErrorValues hiddenErrorValues].
  intros [Hiw How] Hin Hhid Hout Hoerr Hherr.
  rewrite Train_update_output_spec, Train_update_input_spec by assumption.
  bind_step.
  rewrite Train_update_output_spec, Train_update_input_spec by assumption.
  eexists. split; reflexivity.
Qed.

(** ** Zero and NaN inputs *)

Lemma fsum_S (n : nat) (t : nat -> float) :
  fsum (S n) t = fadd (fsum n t) (t n).
Proof. unfold fsum. rewrite seq_S, fold_left_app. reflexivity. Qed.

Lemma fadd_pos_zero_l (z : float) : is_zero z = true -> fadd f0 z = f0.
Proof. intros Hz. destruct z as [[]| | |]; try discriminate Hz; reflexivity. Qed.

(** A sum of zeros of either sign, accumulated from [+0.0f], is [+0.0f]. *)
Lemma fsum_of_zeros (n : nat) (t : nat -> float) :
  (forall k, k < n -> is_zero (t k) = true) -> fsum n t = f0.
Proof.
  intros Ht. induction n as [|n IH]; [reflexivity|].
  rewrite fsum_S, IH by (intros k Hk; apply Ht; lia).
  apply fadd_pos_zero_l, Ht. lia.
Qed.

Lemma at1_forallb (P : float -> bool) (v : list float) (i : nat) :
  forallb P v = true -> i < length v -> P (at1 v i) = true.
Proof.
  intros Hv Hi. unfold at1, read.
  destruct (lookup_lt_is_Some_2 v i Hi) as [x Hx]. rewrite Hx. cbn.
  rewrite forallb_forall in Hv. apply Hv, list_elem_of_In, list_elem_of_lookup.
  exists i. assumption.
Qed.

Lemma tabulate_const {A : Type} (n : nat) (c : A) :
  tabulate n (fun _ => c) = replicate n c.
Proof.
  induction n as [|n IH]; [reflexivity|].
  rewrite tabulate_S, IH. symmetry. apply replicate_S_end.
Qed.

(** X4.  The network has no bias terms: for an input of zeros and finite
    input weights every hidden activation is [sigmoid 0], so that the
    output does not depend on [inputWeights] at all. *)
Theorem Query_zero_input (nn : NeuralNetwork) (input : list float) :
  well_formed nn -> length input = NumInputNodes ->
  forallb is_zero input = true ->
  forallb (forallb is_finite) (inputWeights nn) = true ->
  exists m,
    Query_run nn input = Some m /\
    hiddenValues m = replicate NumHiddenNodes (sigmoid f0) /\
    outputValues m =
    tabulate NumOutputNodes (fun o =>
      sigmoid (fsum NumHiddenNodes (fun h =>
        fmul (sigmoid f0) (at2 (outputWeights nn) o h)))).
Proof.
  intros Hwf Hin Hzero Hfin. rewrite Query_run_spec by assumption.
  assert (Hh : forall h, spec_hidden nn input h = sigmoid f0).
  { intros h. unfold spec_hidden. f_equal. apply fsum_of_zeros. intros i Hi.
    apply fmul_zero_l; [apply at1_forallb; [assumption|lia]|].
    apply at2_finite. assumption. }
  eexists. split; [reflexivity|]. cbn [hiddenValues outputValues]. split.
  - rewrite <- tabulate_const. apply tabulate_ext. intros h _. apply Hh.
  - apply tabulate_ext. intros o _. unfold spec_output. f_equal.
    apply fsum_ext. intros h _. rewrite Hh. reflexivity.
Qed.

Lemma is_nan_eq (x : float) : is_nan x = true -> x = S754_nan.
Proof. intros Hx. destruct x; try discriminate Hx. reflexivity. Qed.

Lemma fadd_nan_l (y : float) : fadd S754_nan y = S754_nan.
Proof. reflexivity. Qed.

Lemma fadd_nan_r (x : float) : fadd x S754_nan = S754_nan.
Proof. destruct x as [[]|[]| |[] m e]; reflexivity. Qed.

Lemma fmul_nan_l (y : float) : fmul S754_nan y = S754_nan.
Proof. reflexivity. Qed.

Lemma fmul_nan_r (x : float) : fmul x S754_nan = S754_nan.
Proof. destruct x as [[]|[]| |[] m e]; reflexivity. Qed.

(** A sum with a NaN term is NaN. *)
Lemma fsum_nan (n k : nat) (t : nat -> float) :
  k < n -> t k = S754_nan -> fsum n t = S754_nan.
Proof.
  intros Hk Htk. induction n as [|n IH]; [lia|]. rewrite fsum_S.
  destruct (decide (k = n)) as [->|Hne].
  - rewrite Htk. apply fadd_nan_r.
  - rewrite IH by lia. apply fadd_nan_l.
Qed.

Lemma sigmoid_nan : exp_of_nan exp -> sigmoid S754_nan = S754_nan.
Proof.
  intros Hexp. unfold sigmoid. change (fneg S754_nan) with S754_nan.
  rewrite Hexp. reflexivity.
Qed.

Lemma spec_hidden_nan (nn : NeuralNetwork) (input : list float) (i h : nat) :
  exp_of_nan exp -> i < NumInputNodes -> is_nan (at1 input i) = true ->
  spec_hidden nn input h = S754_nan.
Proof.
  intros Hexp Hi Hnan. unfold spec_hidden.
  rewrite (fsum_nan _ i) by (assumption || (rewrite (is_nan_eq _ Hnan); reflexivity)).
  apply sigmoid_nan. assumption.
Qed.

(** X5.  A NaN anywhere in the input reaches every output: with at least
    one hidden node, [Query] returns an array of NaN, whatever the weights
    are. *)
Theorem Query_nan_input (nn : NeuralNetwork) (input : list float) (i : nat) :
  exp_of_nan exp ->
  well_formed nn -> length input = NumInputNodes ->
  i < NumInputNodes -> is_nan (at1 input i) = true ->
  0 < NumHiddenNodes ->
  Query nn input = Some (replicate NumOutputNodes S754_nan).
Proof.
  intros Hexp Hwf Hin Hi Hnan Hpos. unfold Query.
  rewrite Query_run_spec by assumption.
  cbn [fmap option_fmap option_map outputValues]. f_equal.
  rewrite <- tabulate_const. apply tabulate_ext. intros o _. unfold spec_output.
  rewrite (fsum_nan _ 0); [apply sigmoid_nan; assumption|assumption|].
  rewrite (spec_hidden_nan nn input i 0) by assumption. reflexivity.
Qed.

Lemma delta_nan_value (lr error source : float) :
  delta lr error S754_nan source = S754_nan.
Proof.
  unfold delta. rewrite fmul_nan_r. cbn [fmul SFmul]. apply fmul_nan_r.
Qed.

Lemma delta_nan_source (lr error value : float) :
  delta lr error value S754_nan = S754_nan.
Proof. unfold delta. rewrite fmul_nan_r. apply fmul_nan_r. Qed.

(** X6.  One NaN in the input destroys the network: after a single [Train]
    call every entry of both weight matrices is NaN, whatever the target and
    the old weights are. *)
Theorem Train_nan_input (nn : NeuralNetwork) (input target : list float) (i : nat) :
  exp_of_nan exp ->
  well_formed nn ->
  length input = NumInputNodes -> length target = NumOutputNodes ->
  i < NumInputNodes -> is_nan (at1 input i) = true ->
  Train nn input target =
  Some (mkNeuralNetwork (learningRate nn)
          (replicate NumHiddenNodes (replicate NumInputNodes S754_nan))
          (replicate NumOutputNodes (replicate NumHiddenNodes S754_nan))).
Proof.
  intros Hexp Hwf Hin Htarget Hi Hnan. unfold Train.
  rewrite Train_run_spec by assumption. cbn [fmap option_fmap option_map net].
  unfold spec_Train. do 2 f_equal.
  - rewrite <- !tabulate_const. apply tabulate_ext. intros h _.
    apply tabulate_ext. intros j _.
    rewrite (spec_hidden_nan nn input i h) by assumption.
    rewrite delta_nan_value. apply fadd_nan_r.
  - rewrite <- !tabulate_const. apply tabulate_ext. intros o _.
    apply tabulate_ext. intros h _.
    rewrite (spec_hidden_nan nn input i h) by assumption.
    rewrite delta_nan_source. apply fadd_nan_r.
Qed.

(** X7.  Both activation arrays that [Train] computes hold only NaN or
    numbers of the closed interval from 0 to 1, whenever [std::exp] returns
    no negative value. *)
Theorem Train_activations_range (nn : NeuralNetwork) (input target : list float) :
  exp_sign_clear exp ->
  well_formed nn ->
  length input = NumInputNodes -> length target = NumOutputNodes ->
  exists m,
    Train_run nn input target = Some m /\
    Forall (fun y => is_nan y = true \/ in_unit_interval y = true) (hiddenValues m) /\
    Forall (fun y => is_nan y = true \/ in_unit_interval y = true) (outputValues m).
Proof.
  intros Hexp Hwf Hin Htarget. rewrite Train_run_spec by assumption.
  eexists. split; [reflexivity|]. cbn [hiddenValues outputValues].
  split; apply Forall_tabulate; intros k _.
  - unfold spec_hidden.
    destruct (sigmoid_unit (fsum NumInputNodes (fun i =>
                fmul (at1 input i) (at2 (inputWeights nn) k i))) Hexp) as [Hn|Hu];
      [left; assumption|right; apply unit_float_in_unit_interval; assumption].
  - unfold spec_output.
    destruct (sigmoid_unit (fsum NumHiddenNodes (fun h =>
                fmul (spec_hidden nn input h) (at2 (outputWeights nn) k h))) Hexp)
      as [Hn|Hu];
      [left; assumption|right; apply unit_float_in_unit_interval; assumption].
Qed.

(** ** Saturated outputs *)

Local Open Scope Z_scope.

Lemma result_of_small (sx : bool) (m2 e2 : Z) :
  0 <= m2 < 2 ^ 24 -> e2 <= -23 -> small_float (result_of sx m2 e2) = true.
Proof.
  intros Hm He. destruct m2 as [|p|p]; [reflexivity| |lia].
  destruct (result_of_pos sx (Zpos p) e2) as (q & Hq & ->); [lia|lia|].
  injection Hq as <-. cbn [small_float].
  apply andb_true_iff. split; [apply Z.ltb_lt|apply Z.leb_le]; lia.
Qed.

(** [t - 1] for a canonical [t] of the unit interval has magnitude below 2. *)
Lemma fsub_unit_one (t : float) :
  unit_float t = true -> small_float (fsub t f1) = true.
Proof.
  intros Ht. destruct t as [[]|[]| |[] m e]; try discriminate Ht.
  { reflexivity. }
  apply andb_true_iff in Ht as [Hm He]. apply Z.ltb_lt in Hm.
  apply orb_true_iff in He as [He|[He Hm']%andb_true_iff].
  2:{ apply Z.eqb_eq in He. apply Z.eqb_eq in Hm'. subst e.
      change (2 ^ 23) with (Zpos 8388608) in Hm'. injection Hm' as ->. reflexivity. }
  apply Z.leb_le in He.
  unfold fsub, f1, SFsub. cbn [cond_Zopp].
  replace (Z.min e (-23)) with e by lia.
  destruct (shl_align_spec m e e) as (a & -> & Ha).
  destruct (shl_align_spec 8388608 (-23) e) as (b & -> & Hb).
  cbn [fst]. replace (e - Z.min e e) with 0 in Ha by lia.
  replace (Z.min (-23) e) with e in Hb by lia.
  change (Z.pos 8388608) with (2 ^ 23) in Hb. rewrite <- Z.pow_add_r in Hb by lia.
  replace (23 + (-23 - e)) with (- e) in Hb by lia.
  assert (2 ^ 24 <= 2 ^ (- e)) by (apply Z.pow_le_mono_r; lia).
  destruct (Z.pos a - Z.pos b) as [|p|p] eqn:HM; try lia.
  cbn [binary_normalize].
  destruct (binary_round_cases true p e) as (m2 & e2 & -> & Hcases).
  cbv zeta in Hcases. rewrite fexp_eq in Hcases.
  assert (HD : Zdigits2 (Zpos p) <= - e) by (apply Zdigits2_le; lia).
  set (E1 := Z.max (Zdigits2 (Z.pos p) + e - 24) (-149)) in *.
  assert (0 <= Z.pos p * 2 ^ (e - Z.min e E1) / 2 ^ (E1 - Z.min e E1)).
  { apply Z.div_pos; [|apply Z.pow_pos_nonneg; lia].
    apply Z.mul_nonneg_nonneg; [lia|apply Z.pow_nonneg; lia]. }
  apply result_of_small; destruct Hcases as [(-> & ? & ?)|(-> & ->)]; lia.
Qed.

(** The product of such a number with [1.0f] does not overflow. *)
Lemma fmul_small_one (x : float) :
  small_float x = true -> is_finite (fmul x f1) = true.
Proof.
  intros Hx. destruct x as [s|s| |s m e]; try discriminate Hx; [reflexivity|].
  apply andb_true_iff in Hx as [Hm He]. apply Z.ltb_lt in Hm. apply Z.leb_le in He.
  unfold fmul, f1, SFmul.
  assert (Hd : Zdigits2 (Zpos (m * 8388608)) = Zdigits2 (Zpos m) + 23).
  { rewrite Pos2Z.inj_mul. change (Z.pos 8388608) with (2 ^ 23).
    apply Zdigits2_shift; lia. }
  assert (Hd1 : 1 <= Zdigits2 (Zpos m) <= 24).
  { split; [cbn; lia|apply Zdigits2_le; lia]. }
  destruct (binary_round_aux_cases (xorb s false) (Zpos (m * 8388608)) (e + -23)
              loc_Exact) as (m2 & e2 & -> & Hcases);
    [lia|rewrite Hd, fexp_eq; lia|].
  cbv zeta in Hcases. rewrite Hd, fexp_eq in Hcases.
  set (E1 := Z.max (Zdigits2 (Z.pos m) + 23 + (e + -23) - 24) (-149)) in *.
  assert (0 <= Z.pos (m * 8388608) / 2 ^ (E1 - (e + -23)))
    by (apply Z.div_pos; [lia|apply Z.pow_pos_nonneg; lia]).
  assert (He2 : 0 <= m2 /\ e2 <= 104)
    by (destruct Hcases as [(-> & ? & ?)|(-> & ->)]; lia).
  destruct m2 as [|q|q]; [reflexivity| |lia].
  destruct (result_of_pos (xorb s false) (Zpos q) e2) as (q' & _ & ->);
    [lia|lia|reflexivity].
Qed.

Local Close Scope Z_scope.

(** The weight delta vanishes when the activation is exactly 0 or 1 and the
    target lies in the unit interval. *)
Lemma delta_saturated (lr t value source : float) :
  is_finite lr = true -> unit_float t = true ->
  value = f0 \/ value = f1 -> is_finite source = true ->
  is_zero (delta lr (fsub t value) value source) = true.
Proof.
  intros Hlr Ht Hval Hsrc. unfold delta.
  apply fmul_zero_r; [assumption|]. apply fmul_zero_l; [|assumption].
  destruct Hval as [->| ->].
  - apply fmul_zero_l; [|reflexivity].
    apply fmul_zero_r; [|reflexivity].
    destruct t as [[]|[]| |[] m e]; try discriminate Ht; reflexivity.
  - change (fsub f1 f1) with f0.
    apply fmul_zero_r; [|reflexivity].
    apply fmul_small_one, fsub_unit_one. assumption.
Qed.

(** X9.  A saturated output is frozen.  If [Query] returns exactly [0.0f]
    or [1.0f] for output [o], from a forward pass whose hidden activations
    are not NaN, then [Train] with any target value in the unit interval
    leaves every weight of row [o] of [outputWeights] equal to its old value
    (exactly so unless the weight is a zero), however far the target is from
    the output. *)
Theorem Train_saturated_output_frozen (nn : NeuralNetwork)
    (input target : list float) (mq : Mem) (o : nat) (y : float) :
  exp_sign_clear exp ->
  well_formed nn ->
  length input = NumInputNodes -> length target = NumOutputNodes ->
  is_finite (learningRate nn) = true ->
  forallb (forallb is_finite) (outputWeights nn) = true ->
  Query_run nn input = Some mq ->
  forallb (fun x => negb (is_nan x)) (hiddenValues mq) = true ->
  outputValues mq !! o = Some y -> y = f0 \/ y = f1 ->
  unit_float (at1 target o) = true ->
  exists nn',
    Train nn input target = Some nn' /\
    forall h, h < NumHiddenNodes ->
      exists w',
        read2 (outputWeights nn') o h = Some w' /\
        feqb w' (at2 (outputWeights nn) o h) = true /\
        (is_zero (at2 (outputWeights nn) o h) = false ->
         w' = at2 (outputWeights nn) o h).
Proof.
  intros Hexp Hwf Hin Htarget Hlr How Hq Hhid Hy Hsat Ht.
  rewrite Query_run_spec in Hq by assumption. injection Hq as <-.
  cbn [hiddenValues outputValues] in *.
  assert (Ho : o < NumOutputNodes).
  { apply lookup_lt_Some in Hy. rewrite length_tabulate in Hy. assumption. }
  rewrite lookup_tabulate in Hy by assumption. injection Hy as Hy.
  assert (Hh : forall h, h < NumHiddenNodes ->
            is_finite (spec_hidden nn input h) = true).
  { intros h Hlt. pose proof (forallb_tabulate _ _ _ h Hhid Hlt) as Hn.
    unfold spec_hidden in *.
    destruct (sigmoid_unit (fsum NumInputNodes (fun i =>
                fmul (at1 input i) (at2 (inputWeights nn) h i))) Hexp) as [Hnan|Hu];
      [rewrite Hnan in Hn; discriminate Hn|apply unit_float_finite; assumption]. }
  unfold Train. rewrite Train_run_spec by assumption.
  eexists. split; [reflexivity|]. cbn [net spec_Train outputWeights].
  intros h Hlt. eexists. split.
  { unfold read2. rewrite lookup_tabulate by assumption. bind_step.
    unfold read. rewrite lookup_tabulate by assumption. reflexivity. }
  apply fadd_zero_same; [apply at2_finite; assumption|].
  unfold spec_outputError. rewrite Hy.
  apply delta_saturated; auto.
Qed.

End Network.

(** ** The reference [exp] is never negative *)

Lemma result_of_sign_clear (m e : Z) :
  is_nan (result_of false m e) || sign_clear (result_of false m e) = true.
Proof.
  unfold result_of. destruct m; [reflexivity| |reflexivity].
  destruct (e <=? emax - prec)%Z; reflexivity.
Qed.

Lemma binary_normalize_sign_clear (m e : Z) :
  (0 <= m)%Z ->
  is_nan (binary_normalize prec emax m e false) ||
  sign_clear (binary_normalize prec emax m e false) = true.
Proof.
  intros Hm. destruct m as [|p|p]; [reflexivity| |lia]. cbn [binary_normalize].
  destruct (binary_round_cases false p e) as (m2 & e2 & -> & _).
  apply result_of_sign_clear.
Qed.

Lemma square_n_nonneg (n : nat) (t : Z) : (0 <= t)%Z -> (0 <= Libm.square_n n t)%Z.
Proof.
  revert t. induction n as [|n IH]; intros t Ht; [assumption|].
  cbn [Libm.square_n]. apply IH.
  apply Z.quot_pos; [apply Z.square_nonneg|].
  apply Z.pow_pos_nonneg; [lia|unfold Libm.frac_bits; lia].
Qed.

Lemma square_n_S (n : nat) (t : Z) :
  Libm.square_n (S n) t = Libm.square_n n (Z.quot (t * t) (2 ^ Libm.frac_bits)).
Proof. reflexivity. Qed.

Lemma pow_frac_bits_pos : (0 < 2 ^ Libm.frac_bits)%Z.
Proof. apply Z.pow_pos_nonneg; [lia|unfold Libm.frac_bits; lia]. Qed.

Lemma expf_sign_clear : exp_sign_clear Libm.expf.
Proof.
  intros x. destruct x as [s|[]| |s m e]; try reflexivity. unfold Libm.expf.
  destruct (8 <=? e)%Z; [destruct s; reflexivity|].
  destruct (2 ^ (Libm.frac_bits - 1) <=? _)%Z; [destruct s; reflexivity|].
  apply binary_normalize_sign_clear. rewrite (square_n_S 7).
  apply square_n_nonneg.
  apply Z.quot_pos; [apply Z.square_nonneg|apply pow_frac_bits_pos].
Qed.

Lemma demo_net_well_formed : well_formed 2 2 2 demo_net.
Proof. split; reflexivity. Qed.

(** ** The claims on the concrete network *)

Lemma Query_forward_pass_witness :
  exists r,
    Query 2 2 2 Libm.expf demo_net demo_input = Some r /\
    length r = 2 /\
    forall o, o < 2 ->
      r !! o = Some (spec_output 2 2 Libm.expf demo_net demo_input o).
Proof.
  apply (Query_forward_pass 2 2 2 Libm.expf demo_net demo_input);
    [split; reflexivity|reflexivity].
Defined.

Lemma Train_single_step_update_witness :
  exists nn',
    Train 2 2 2 Libm.expf demo_net demo_input demo_target = Some nn' /\
    (forall o h, o < 2 -> h < 2 ->
       read2 (outputWeights nn') o h =
       Some (fadd (at2 (outputWeights demo_net) o h)
               (delta (learningRate demo_net)
                  (spec_outputError 2 2 Libm.expf demo_net demo_input demo_target o)
                  (spec_output 2 2 Libm.expf demo_net demo_input o)
                  (spec_hidden 2 Libm.expf demo_net demo_input h)))) /\
    (forall h i, h < 2 -> i < 2 ->
       read2 (inputWeights nn') h i =
       Some (fadd (at2 (inputWeights demo_net) h i)
               (delta (learningRate demo_net)
                  (spec_hiddenError 2 2 2 Libm.expf demo_net demo_input demo_target h)
                  (spec_hidden 2 Libm.expf demo_net demo_input h)
                  (at1 demo_input i)))).
Proof.
  apply (Train_single_step_update 2 2 2 Libm.expf demo_net demo_input demo_target);
    [split; reflexivity|reflexivity|reflexivity].
Defined.

Lemma Train_hidden_error_before_updates_witness :
  exists m1 m2 m3,
    block [Train_forward 2 2 Libm.expf demo_input; Train_errors 2 2 demo_target]
      (enter demo_net) = Some m1 /\
    net m1 = demo_net /\
    (forall h, h < 2 ->
       hiddenErrorValues m1 !! h =
       Some (fsum 2 (fun o =>
               fmul (at2 (outputWeights demo_net) o h)
                    (fsub (at1 demo_target o) (at1 (outputValues m1) o))))) /\
    Train_update_output 2 2 m1 = Some m2 /\
    inputWeights (net m2) = inputWeights demo_net /\
    hiddenErrorValues m2 = hiddenErrorValues m1 /\
    Train_update_input 2 2 demo_input m2 = Some m3 /\
    outputWeights (net m3) = outputWeights (net m2) /\
    hiddenErrorValues m3 = hiddenErrorValues m1 /\
    Train_run 2 2 2 Libm.expf demo_net demo_input demo_target = Some m3.
Proof.
  apply (Train_hidden_error_before_updates 2 2 2 Libm.expf demo_net demo_input
           demo_target); [split; reflexivity|reflexivity|reflexivity].
Defined.

Lemma Train_forward_equals_Query_witness :
  exists mq mt,
    Query_run 2 2 2 Libm.expf demo_net demo_input = Some mq /\
    Train_forward 2 2 Libm.expf demo_input (enter demo_net) = Some mt /\
    hiddenValues mt = hiddenValues mq /\
    outputValues mt = outputValues mq /\
    Query 2 2 2 Libm.expf demo_net demo_input = Some (outputValues mt).
Proof.
  apply (Train_forward_equals_Query 2 2 2 Libm.expf demo_net demo_input);
    [split; reflexivity|reflexivity].
Defined.

Lemma Query_read_only_witness :
  exists m,
    Query_run 2 2 2 Libm.expf demo_net demo_input = Some m /\
    learningRate (net m) = learningRate demo_net /\
    inputWeights (net m) = inputWeights demo_net /\
    outputWeights (net m) = outputWeights demo_net.
Proof.
  apply (Query_read_only 2 2 2 Libm.expf demo_net demo_input);
    [split; reflexivity|reflexivity].
Defined.

Lemma Train_frame_witness :
  exists nn',
    Train 2 2 2 Libm.expf demo_net demo_input demo_target = Some nn' /\
    learningRate nn' = learningRate demo_net /\
    well_formed 2 2 2 nn'.
Proof.
  apply (Train_frame 2 2 2 Libm.expf demo_net demo_input demo_target);
    [split; reflexivity|reflexivity|reflexivity].
Defined.

Lemma Query_deterministic_witness :
  exists m1 m2,
    Query_run 2 2 2 Libm.expf demo_net demo_input = Some m1 /\
    Query_run 2 2 2 Libm.expf (net m1) demo_input = Some m2 /\
    outputValues m1 = outputValues m2.
Proof.
  apply (Query_deterministic 2 2 2 Libm.expf demo_net demo_input);
    [split; reflexivity|reflexivity].
Defined.

Lemma calls_of_declared_shape_succeed_witness :
  is_Some (Query 2 2 2 Libm.expf demo_net demo_input) /\
  is_Some (Train 2 2 2 Libm.expf demo_net demo_input demo_target).
Proof.
  apply (calls_of_declared_shape_succeed 2 2 2 Libm.expf demo_net demo_input
           demo_target); [split; reflexivity|reflexivity|reflexivity].
Defined.

Lemma Query_output_range_witness :
  exists r,
    Query 2 2 2 Libm.expf demo_net demo_input = Some r /\
    Forall (fun y => is_nan y = true \/ in_unit_interval y = true) r.
Proof.
  apply (Query_output_range 2 2 2 Libm.expf demo_net demo_input);
    [exact expf_sign_clear|split; reflexivity|reflexivity].
Defined.

Lemma Train_zero_residual_witness :
  exists nn',
    Train 2 2 2 Libm.expf demo_net demo_input (outputValues demo_query_mem) = Some nn' /\
    (forall o h, o < 2 -> h < 2 ->
       exists w',
         read2 (outputWeights nn') o h = Some w' /\
         feqb w' (at2 (outputWeights demo_net) o h) = true /\
         (is_zero (at2 (outputWeights demo_net) o h) = false ->
          w' = at2 (outputWeights demo_net) o h)) /\
    (forall h i, h < 2 -> i < 2 ->
       exists w',
         read2 (inputWeights nn') h i = Some w' /\
         feqb w' (at2 (inputWeights demo_net) h i) = true /\
         (is_zero (at2 (inputWeights demo_net) h i) = false ->
          w' = at2 (inputWeights demo_net) h i)).
Proof.
  apply (Train_zero_residual 2 2 2 Libm.expf demo_net demo_input
           (outputValues demo_query_mem) demo_query_mem);
    [exact expf_sign_clear|split; reflexivity|reflexivity|reflexivity|reflexivity
    |vm_compute; reflexivity|vm_compute; reflexivity|reflexivity].
Defined.

(** ** Where the specification's wording fails *)

(** *** C5: outputs on the boundary of the unit interval *)

(** For every [exp] that maps minus infinity to [+0], as IEC 60559
    requires, [Query] returns exactly [1.0f] on [sat_net]. *)
Lemma Query_saturates (exp : float -> float) :
  exp (S754_infinity true) = f0 ->
  Query 1 2 1 exp sat_net sat_input = Some [f1].
Proof.
  intros Hexp.
  assert (Hh : forall h, h < 2 -> spec_hidden 1 exp sat_net sat_input h = f1).
  { intros h Hh. unfold spec_hidden, sigmoid.
    replace (fneg (fsum 1 (fun i =>
               fmul (at1 sat_input i) (at2 (inputWeights sat_net) h i))))
      with (S754_infinity true).
    - rewrite Hexp. reflexivity.
    - destruct h as [|[|h]]; [vm_compute; reflexivity..|lia]. }
  unfold Query. rewrite Query_run_spec by (reflexivity || (split; reflexivity)).
  cbn [fmap option_fmap option_map outputValues]. unfold tabulate. cbn [seq map].
  unfold spec_output.
  rewrite (fsum_ext 2 _ (fun h => fmul f1 (at2 (outputWeights sat_net) 0 h)))
    by (intros h Hlt; rewrite Hh by assumption; reflexivity).
  unfold sigmoid.
  replace (fneg (fsum 2 (fun h => fmul f1 (at2 (outputWeights sat_net) 0 h))))
    with (S754_infinity true) by (vm_compute; reflexivity).
  rewrite Hexp. reflexivity.
Qed.

(** C5 (counterexample).  All weights and the input are finite, yet the
    output is exactly [1.0f], which is not strictly below 1. *)
Lemma Query_output_reaches_one :
  well_formed 1 2 1 sat_net /\
  finite_network sat_net = true /\
  forallb is_finite sat_input = true /\
  length sat_input = 1 /\
  Query 1 2 1 Libm.expf sat_net sat_input = Some [f1] /\
  in_open_unit_interval f1 = false.
Proof.
  split; [split; reflexivity|]. do 3 (split; [reflexivity|]).
  split; [apply Query_saturates; reflexivity|reflexivity].
Qed.

(** The same happens without any overflow: [exp (-17)] is below half an
    ulp of 1. *)
Example Query_output_reaches_one_at_17 :
  Query 1 1 1 Libm.expf (mkNeuralNetwork half [[f1]] [[seventeen]]) [seventeen] =
  Some [f1].
Proof. vm_compute. reflexivity. Qed.

(** The lower end is reached as well, and finite data can produce NaN. *)
Example Query_output_reaches_zero :
  Query 1 2 1 Libm.expf
    (mkNeuralNetwork half [[f1]; [f1]] [[fneg FLT_MAX; fneg FLT_MAX]]) [seventeen] =
  Some [f0].
Proof. vm_compute. reflexivity. Qed.

Example Query_output_nan :
  finite_network overflow_net = true /\
  forallb is_finite overflow_input = true /\
  Query 2 1 1 Libm.expf overflow_net overflow_input = Some [S754_nan].
Proof. split; [reflexivity|]. split; [reflexivity|]. vm_compute. reflexivity. Qed.

(** *** C10: training on the network's own output *)

(** C10 (counterexample).  In each case the target is the array that
    [Query] returns.  With an infinite input the input weight 0.5 becomes
    NaN; with finite data throughout, the output weight [-0.0f] becomes
    [+0.0f]; with finite data whose sums overflow, every weight becomes
    NaN. *)
Lemma Train_on_own_output_changes_weights :
  (Query 1 1 1 Libm.expf unit_net [S754_infinity false] =
     Some [S754_finite false 10443135 (-24)] /\
   Train 1 1 1 Libm.expf unit_net [S754_infinity false]
     [S754_finite false 10443135 (-24)] =
     Some (mkNeuralNetwork half [[S754_nan]] [[half]])) /\
  (finite_network zero_net = true /\
   Query 1 1 1 Libm.expf zero_net [f1] = Some [half] /\
   Train 1 1 1 Libm.expf zero_net [f1] [half] =
     Some (mkNeuralNetwork half [[half]] [[f0]]) /\
   f0 <> fm0) /\
  (finite_network overflow_net = true /\
   Query 2 1 1 Libm.expf overflow_net overflow_input = Some [S754_nan] /\
   Train 2 1 1 Libm.expf overflow_net overflow_input [S754_nan] =
     Some (mkNeuralNetwork half [[S754_nan; S754_nan]] [[S754_nan]])).
Proof.
  split; [split; vm_compute; reflexivity|].
  split.
  - split; [reflexivity|]. split; [vm_compute; reflexivity|].
    split; [vm_compute; reflexivity|discriminate].
  - split; [reflexivity|]. split; vm_compute; reflexivity.
Qed.

(** An infinite weight or an infinite learning rate has the same effect. *)
Example Train_on_own_output_infinite_weight :
  Query 1 1 1 Libm.expf (mkNeuralNetwork half [[half]] [[S754_infinity false]]) [f1] =
    Some [f1] /\
  Train 1 1 1 Libm.expf (mkNeuralNetwork half [[half]] [[S754_infinity false]]) [f1] [f1] =
    Some (mkNeuralNetwork half [[S754_nan]] [[S754_infinity false]]).
Proof. split; vm_compute; reflexivity. Qed.

Example Train_on_own_output_infinite_rate :
  Query 1 1 1 Libm.expf (mkNeuralNetwork (S754_infinity false) [[half]] [[half]]) [f1] =
    Some [S754_finite false 9683564 (-24)] /\
  Train 1 1 1 Libm.expf (mkNeuralNetwork (S754_infinity false) [[half]] [[half]]) [f1]
    [S754_finite false 9683564 (-24)] =
    Some (mkNeuralNetwork (S754_infinity false) [[S754_nan]] [[S754_nan]]).
Proof. split; vm_compute; reflexivity. Qed.

(** ** The further properties on the concrete networks *)

Lemma Query_never_writes_network_witness : net demo_query_mem = demo_net.
Proof.
  apply (Query_never_writes_network 2 2 2 Libm.expf demo_net demo_input).
  vm_compute. reflexivity.
Defined.

Lemma Train_keeps_rate_and_shapes_witness :
  let nn' :=
    default demo_net (Train 2 2 2 Libm.expf demo_net demo_input demo_target) in
  learningRate nn' = learningRate demo_net /\
  row_lengths (inputWeights nn') = row_lengths (inputWeights demo_net) /\
  row_lengths (outputWeights nn') = row_lengths (outputWeights demo_net).
Proof.
  apply (Train_keeps_rate_and_shapes 2 2 2 Libm.expf demo_net _ demo_input
           demo_target).
  vm_compute. reflexivity.
Defined.

Lemma Train_updates_commute_witness :
  exists m',
    Train_update_output 2 2 demo_mem ≫= Train_update_input 2 2 demo_input = Some m' /\
    Train_update_input 2 2 demo_input demo_mem ≫= Train_update_output 2 2 = Some m'.
Proof.
  apply (Train_updates_commute 2 2 2 demo_mem demo_input);
    [split; reflexivity|reflexivity..].
Defined.

Lemma Query_zero_input_witness :
  exists m,
    Query_run 2 2 2 Libm.expf demo_net zero_input = Some m /\
    hiddenValues m = replicate 2 (sigmoid Libm.expf f0) /\
    outputValues m =
    tabulate 2 (fun o =>
      sigmoid Libm.expf (fsum 2 (fun h =>
        fmul (sigmoid Libm.expf f0) (at2 (outputWeights demo_net) o h)))).
Proof.
  apply (Query_zero_input 2 2 2 Libm.expf demo_net zero_input);
    [split; reflexivity|reflexivity..].
Defined.

Lemma Query_nan_input_witness :
  Query 2 2 2 Libm.expf demo_net nan_input = Some (replicate 2 S754_nan).
Proof.
  apply (Query_nan_input 2 2 2 Libm.expf demo_net nan_input 1);
    [reflexivity|split; reflexivity|reflexivity|lia|reflexivity|lia].
Defined.

Lemma Train_nan_input_witness :
  Train 2 2 2 Libm.expf demo_net nan_input demo_target =
  Some (mkNeuralNetwork (learningRate demo_net)
          (replicate 2 (replicate 2 S754_nan)) (replicate 2 (replicate 2 S754_nan))).
Proof.
  apply (Train_nan_input 2 2 2 Libm.expf demo_net nan_input demo_target 1);
    [reflexivity|split; reflexivity|reflexivity|reflexivity|lia|reflexivity].
Defined.

Lemma Train_activations_range_witness :
  exists m,
    Train_run 2 2 2 Libm.expf demo_net demo_input demo_target = Some m /\
    Forall (fun y => is_nan y = true \/ in_unit_interval y = true) (hiddenValues m) /\
    Forall (fun y => is_nan y = true \/ in_unit_interval y = true) (outputValues m).
Proof.
  apply (Train_activations_range 2 2 2 Libm.expf demo_net demo_input demo_target);
    [exact expf_sign_clear|split; reflexivity|reflexivity|reflexivity].
Defined.

(** The target is 0 and the output is 1, yet the output weight stays 17. *)
Lemma Train_saturated_output_frozen_witness :
  exists nn',
    Train 1 1 1 Libm.expf saturated_net saturated_input [f0] = Some nn' /\
    forall h, h < 1 ->
      exists w',
        read2 (outputWeights nn') 0 h = Some w' /\
        feqb w' (at2 (outputWeights saturated_net) 0 h) = true /\
        (is_zero (at2 (outputWeights saturated_net) 0 h) = false ->
         w' = at2 (outputWeights saturated_net) 0 h).
Proof.
  apply (Train_saturated_output_frozen 1 1 1 Libm.expf saturated_net saturated_input
           [f0] (mkMem saturated_net [f1] [f1] [] []) 0 f1);
    [exact expf_sign_clear|split; reflexivity|reflexivity|reflexivity|reflexivity
    |reflexivity|vm_compute; reflexivity|reflexivity|reflexivity
    |right; reflexivity|reflexivity].
Defined.
